(** * cache-sqlite-lru-ttl: the cache engine of [src/index.ts]

    A shallow embedding of the [SqliteCache] class: the rows of the cache
    table, the six prepared statements built by [initSqliteCache], the
    facade operations [get], [set], [delete], [clear], [close] and the
    debounced background sweep [checkForExpiredItems].

    Conventions.
    - Timestamps and durations are integer milliseconds ([Z]).  Every call
      of [Date.now()] is an explicit argument of the operation that makes it.
    - The table is a finite map from the primary key [key] to the other
      columns, so the uniqueness of keys is structural.
    - The statements of better-sqlite3 run synchronously; a method is
      modelled as one atomic step on the cache state, the interleavings at
      its [await]s are not modelled.  The background work (the interval
      timer, the callbacks queued with [setImmediate], the timer of the
      debounce wrapper) is a separate kind of step, [SqliteCache.fire].
    - Where the two revisions of the file differ, the model follows the
      current one (identifier quoting, [expires ?? null]).
    - [cbor] and [zlib] are libraries outside the repository; they enter as
      the operations of the class [Codec]. *)

From Stdlib Require Import ZArith Lia.
From stdpp Require Import gmap strings list fin_maps sorting.

(** ** Values of the host language *)

Abbreviation Buffer := (list Byte.byte).

(** What the code can throw. *)
Inductive Exn : Type :=
| CacheClosed                  (* new Error("Cache is closed") *)
| ZodError                     (* configurationSchema.parse rejects *)
| SqliteError (msg : string)   (* raised by the storage engine *)
| ZlibError                    (* gunzip rejects the bytes *)
| CborError.                   (* cbor.decode rejects the bytes *)

#[global] Instance Exn_eq_dec : EqDecision Exn.
Proof. solve_decision. Defined.

(** [a ?? b] *)
Definition nullish {A : Type} (a : option A) (b : A) : A :=
  match a with Some x => x | None => b end.

(** A JavaScript number used as a condition: [0] is falsy. *)
Definition truthy (n : Z) : bool := negb (n =? 0)%Z.

(** [new Date(t).getTime()]: the time value is clipped, a time further than
    8.64e15 ms from the epoch gives an invalid date whose [getTime()] is
    [NaN].  [None] stands for [NaN]; the storage engine binds a [NaN]
    parameter as [NULL]. *)
Definition new_Date_getTime (t : Z) : option Z :=
  if decide (Z.abs t ≤ 8640000000000000)%Z then Some t else None.

Definition COMPRESSION_MIN_LENGTH : nat := 1024.

(** [cbor.encode], [cbor.decode], [compress = promisify(zlib.gzip)] and
    [decompress = promisify(zlib.gunzip)]; [undefined] is the value that
    [get] returns for a missing row. *)
Class Codec (Value : Type) : Type := {
  undefined : Value;
  cbor_encode : Value → Buffer;
  cbor_decode : Buffer → Exn + Value;
  compress : Buffer → Buffer;
  decompress : Buffer → Exn + Buffer }.

(** ** Configuration *)

Module Configuration.
Record t : Type := {
  database : string;
  defaultTtlMs : option Z;
  maxItems : option Z;
  compress : option bool;
  cacheTableName : option string }.
End Configuration.

Definition positive_optional (n : option Z) : bool :=
  match n with Some x => (0 <? x)%Z | None => true end.

(** [configurationSchema.parse]: both numbers, when given, are positive;
    the two defaults are filled in. *)
Definition configurationSchema_parse (c : Configuration.t) : Exn + Configuration.t :=
  if positive_optional (Configuration.defaultTtlMs c) && positive_optional (Configuration.maxItems c)
  then inr {| Configuration.database := Configuration.database c;
              Configuration.defaultTtlMs := Configuration.defaultTtlMs c;
              Configuration.maxItems := Configuration.maxItems c;
              Configuration.compress := Some (nullish (Configuration.compress c) false);
              Configuration.cacheTableName := Some (nullish (Configuration.cacheTableName c) "cache") |}
  else inl ZodError.

(** The options of one [set] call. *)
Module Opts.
Record t : Type := {
  ttlMs : option Z;
  compress : option bool }.
End Opts.

(** ** The cache table *)

(** One row, without its primary key: columns [value BLOB], [expires INT]
    (nullable), [lastAccess INT], [compressed BOOLEAN] (stored as 0 or 1). *)
Record Row : Type := {
  value : Buffer;
  expires : option Z;
  lastAccess : Z;
  compressed : Z }.

Definition touch (now : Z) (r : Row) : Row :=
  {| value := value r; expires := expires r; lastAccess := now; compressed := compressed r |}.

(** The connection: the rows of the cache table and whether the handle is
    still open. *)
Record Connection : Type := {
  table : gmap string Row;
  isOpen : bool }.

Definition with_table (t : gmap string Row) (c : Connection) : Connection :=
  {| table := t; isOpen := isOpen c |}.

(** *** SQL predicates *)

(** [expires > @now OR expires IS NULL] *)
Definition live (now : Z) (r : Row) : bool :=
  match expires r with
  | Some e => (now <? e)%Z
  | None => true
  end.

(** [expires < @now]; a comparison with [NULL] is not true. *)
Definition expired (now : Z) (r : Row) : bool :=
  match expires r with
  | Some e => (e <? now)%Z
  | None => false
  end.

(** *** The statements on the table *)

(** [UPDATE OR IGNORE t SET lastAccess = @now
     WHERE key = @key AND (expires > @now OR expires IS NULL)
     RETURNING value, compressed] *)
Definition sql_get (key : string) (now : Z) (t : gmap string Row)
  : option (Buffer * Z) * gmap string Row :=
  match t !! key with
  | Some r =>
      if live now r
      then (Some (value r, compressed r), <[key := touch now r]> t)
      else (None, t)
  | None => (None, t)
  end.

(** [INSERT OR REPLACE INTO t (key, value, expires, lastAccess, compressed)
     VALUES (@key, @value, @expires, @now, @compressed)] *)
Definition sql_set (key : string) (v : Buffer) (e : option Z) (now : Z) (c : Z)
  (t : gmap string Row) : gmap string Row :=
  <[key := {| value := v; expires := e; lastAccess := now; compressed := c |}]> t.

(** [DELETE FROM t WHERE key = @key] *)
Definition sql_delete (key : string) (t : gmap string Row) : gmap string Row :=
  base.delete key t.

(** [DELETE FROM t] *)
Definition sql_clear (t : gmap string Row) : gmap string Row := ∅.

(** [DELETE FROM t WHERE expires < @now] *)
Definition sql_cleanupExpired (now : Z) (t : gmap string Row) : gmap string Row :=
  filter (λ kr : string * Row, expired now kr.2 = false) t.

(** [ORDER BY lastAccess DESC].  The engine leaves the order of rows with
    equal [lastAccess] open; the model fixes one order (a merge sort of the
    rows), and the results below do not depend on which. *)
Definition byLastAccessDesc (a b : string * Row) : Prop :=
  (lastAccess b.2 ≤ lastAccess a.2)%Z.

#[global] Instance byLastAccessDesc_dec (a b : string * Row) :
  Decision (byLastAccessDesc a b).
Proof. unfold byLastAccessDesc. apply _. Defined.

Definition order_by_lastAccess_desc (t : gmap string Row) : list (string * Row) :=
  merge_sort byLastAccessDesc (map_to_list t).

(** [SELECT key FROM t ORDER BY lastAccess DESC LIMIT -1 OFFSET @maxItems];
    a negative offset counts as zero. *)
Definition lru (maxItems : Z) (t : gmap string Row) : list string :=
  (drop (Z.to_nat maxItems) (order_by_lastAccess_desc t)).*1.

(** [WITH lru AS (...) DELETE FROM t WHERE key IN lru] *)
Definition sql_cleanupLru (maxItems : Z) (t : gmap string Row) : gmap string Row :=
  filter (λ kr : string * Row, kr.1 ∉ lru maxItems t) t.

(** *** The object returned by [initSqliteCache] *)

(** The connection's [close] and the [run]/[get] method of each prepared
    statement.  A statement either raises or yields the next connection
    state; on a raise nothing is written. *)
Record PreparedStatements : Type := {
  db_close : Connection → Exn + Connection;
  getStatement : string → Z → Connection → Exn + (option (Buffer * Z) * Connection);
  setStatement : string → Buffer → option Z → Z → Z → Connection → Exn + Connection;
  deleteStatement : string → Connection → Exn + Connection;
  clearStatement : Connection → Exn + Connection;
  cleanupExpiredStatement : Z → Connection → Exn + Connection;
  cleanupLruStatement : Z → Connection → Exn + Connection }.

Definition not_open : Exn := SqliteError "The database connection is not open".

(** Running a statement on the handle: it raises once the handle is closed. *)
Definition run (f : gmap string Row → gmap string Row) (c : Connection) : Exn + Connection :=
  if isOpen c then inr (with_table (f (table c)) c) else inl not_open.

Definition initSqliteCache : PreparedStatements := {|
  db_close := λ c, inr {| table := table c; isOpen := false |};
  getStatement := λ key now c,
    if isOpen c
    then let '(res, t) := sql_get key now (table c) in inr (res, with_table t c)
    else inl not_open;
  setStatement := λ key v e now cz, run (sql_set key v e now cz);
  deleteStatement := λ key, run (sql_delete key);
  clearStatement := run sql_clear;
  cleanupExpiredStatement := λ now, run (sql_cleanupExpired now);
  cleanupLruStatement := λ maxItems, run (sql_cleanupLru maxItems) |}.

(** ** The cache object *)

(** State of the wrapper that [debounce(fn, 100, { immediate: true })]
    (package [debounce]) puts around the sweep: whether its timer is
    pending and the time of the last call. *)
Record Debounced : Type := {
  timeoutId : bool;
  timestamp : Z }.

Definition DEBOUNCE_WAIT : Z := 100.

Module SqliteCache.

(** The fields of a [SqliteCache] object together with the part of the event
    loop that belongs to it: the [setImmediate] callbacks queued by [set]
    and not yet run, and the lines written by [console.error]. *)
Record t : Type := {
  configuration : Configuration.t;
  db : Connection;
  checkInterval : bool;        (* the setInterval timer is armed *)
  isClosed : bool;
  debounced : Debounced;
  immediates : nat;
  console : list Exn }.

Definition set_db (c : Connection) (s : t) : t :=
  {| configuration := configuration s; db := c; checkInterval := checkInterval s;
     isClosed := isClosed s; debounced := debounced s; immediates := immediates s;
     console := console s |}.

Definition set_checkInterval (b : bool) (s : t) : t :=
  {| configuration := configuration s; db := db s; checkInterval := b;
     isClosed := isClosed s; debounced := debounced s; immediates := immediates s;
     console := console s |}.

Definition set_isClosed (b : bool) (s : t) : t :=
  {| configuration := configuration s; db := db s; checkInterval := checkInterval s;
     isClosed := b; debounced := debounced s; immediates := immediates s;
     console := console s |}.

Definition set_debounced (d : Debounced) (s : t) : t :=
  {| configuration := configuration s; db := db s; checkInterval := checkInterval s;
     isClosed := isClosed s; debounced := d; immediates := immediates s;
     console := console s |}.

Definition set_immediates (n : nat) (s : t) : t :=
  {| configuration := configuration s; db := db s; checkInterval := checkInterval s;
     isClosed := isClosed s; debounced := debounced s; immediates := n;
     console := console s |}.

(** [console.error("Error in cache-sqlite-lru-ttl when checking for expired items", ex)] *)
Definition console_error (ex : Exn) (s : t) : t :=
  {| configuration := configuration s; db := db s; checkInterval := checkInterval s;
     isClosed := isClosed s; debounced := debounced s; immediates := immediates s;
     console := console s ++ [ex] |}.

(** *** Methods as state transformers that may throw *)

Definition M (A : Type) : Type := t → (Exn + A) * t.

Definition ret {A : Type} (a : A) : M A := λ s, (inr a, s).

Definition throw {A : Type} (e : Exn) : M A := λ s, (inl e, s).

Definition bind {A B : Type} (m : M A) (k : A → M B) : M B :=
  λ s, match m s with
       | (inl e, s') => (inl e, s')
       | (inr a, s') => k a s'
       end.

(** [try { m } catch (ex) { h ex }]: what [m] wrote before it threw stays. *)
Definition try_catch {A : Type} (m : M A) (h : Exn → M A) : M A :=
  λ s, match m s with
       | (inl e, s') => h e s'
       | (inr a, s') => (inr a, s')
       end.

Definition gets {A : Type} (f : t → A) : M A := λ s, (inr (f s), s).

Definition modify (f : t → t) : M unit := λ s, (inr tt, f s).

(** [await p] for a promise that settles with [r]. *)
Definition await {A : Type} (r : Exn + A) : M A := λ s, (r, s).

(** [(await this.db).stmt.run(...)] *)
Definition run_statement (stmt : Connection → Exn + Connection) : M unit :=
  λ s, match stmt (db s) with
       | inl e => (inl e, s)
       | inr c => (inr tt, set_db c s)
       end.

(** [(await this.db).stmt.get(...)] *)
Definition get_statement {A : Type} (stmt : Connection → Exn + (A * Connection)) : M A :=
  λ s, match stmt (db s) with
       | inl e => (inl e, s)
       | inr (a, c) => (inr a, set_db c s)
       end.

Notation "x <- m ;; k" := (bind m (λ x, k))
  (at level 100, m at next level, right associativity, only parsing).
Notation "m >> k" := (bind m (λ _, k))
  (at level 100, right associativity, only parsing).

Section Methods.
Context {Value : Type} {codec : Codec Value} (stmts : PreparedStatements).

(** [new SqliteCache(configuration)] on a database whose cache table holds
    [rows] (the DDL of [initSqliteCache] is [IF NOT EXISTS] and keeps them).
    The object keeps the configuration as passed; the parsed one only
    validates. *)
Definition new (configuration : Configuration.t) (rows : gmap string Row) : Exn + t :=
  match configurationSchema_parse configuration with
  | inl e => inl e
  | inr _ =>
      inr {| configuration := configuration;
             db := {| table := rows; isOpen := true |};
             checkInterval := true;
             isClosed := false;
             debounced := {| timeoutId := false; timestamp := 0 |};
             immediates := 0;
             console := [] |}
  end.

Definition get (key : string) (now : Z) : M Value :=
  closed <- gets isClosed ;;
  if closed then throw CacheClosed else
  res <- get_statement (getStatement stmts key now) ;;
  match res with
  | None => ret undefined
  | Some (value, compressed) =>
      value <- (if truthy compressed then await (decompress value) else ret value) ;;
      await (cbor_decode value)
  end.

(** [date_now] is the [Date.now()] of the expiry, [now] the later [now()] of
    the statement parameters. *)
Definition set (key : string) (value : Value) (opts : Opts.t) (date_now now : Z) : M unit :=
  closed <- gets isClosed ;;
  if closed then throw CacheClosed else
  cfg <- gets configuration ;;
  (* const ttl = opts.ttlMs ?? opts.ttlMs *)
  let ttl := match Opts.ttlMs opts with Some x => Some x | None => Opts.ttlMs opts end in
  (* const expires = ttl !== undefined ? new Date(Date.now() + ttl) : undefined;
     the date is kept as its time value *)
  let expires := match ttl with
                 | Some ttl => Some (new_Date_getTime (date_now + ttl))
                 | None => None
                 end in
  (* let compression = opts.compress ?? this.configuration.compress ?? false *)
  let compression :=
    nullish (match Opts.compress opts with
             | Some b => Some b
             | None => Configuration.compress cfg
             end) false in
  let valueBuffer := cbor_encode value in
  let '(compression, valueBuffer) :=
    if compression && bool_decide (COMPRESSION_MIN_LENGTH ≤ length valueBuffer)
    then
      let compressed := compress valueBuffer in
      if bool_decide (length valueBuffer ≤ length compressed)
      then (false, valueBuffer)
      else (compression, compressed)
    else (false, valueBuffer) in
  run_statement
    (setStatement stmts key valueBuffer
       (* expires: expires?.getTime() ?? null *)
       (match expires with Some time => time | None => None end)
       now
       (* compressed: compression ? 1 : 0 *)
       (if compression then 1 else 0)%Z) >>
  (* setImmediate(this.checkForExpiredItems.bind(this)) *)
  modify (λ s, set_immediates (S (immediates s)) s).

Definition delete (key : string) : M unit :=
  closed <- gets isClosed ;;
  if closed then throw CacheClosed else
  run_statement (deleteStatement stmts key).

Definition clear : M unit :=
  closed <- gets isClosed ;;
  if closed then throw CacheClosed else
  run_statement (clearStatement stmts).

Definition close : M unit :=
  modify (set_checkInterval false) >>      (* clearInterval(this.checkInterval) *)
  run_statement (db_close stmts) >>        (* (await this.db).db.close() *)
  modify (set_isClosed true).              (* this.isClosed = true *)

(** The function wrapped by [debounce]: one sweep cycle. *)
Definition sweep (now : Z) : M unit :=
  closed <- gets isClosed ;;
  if closed then ret tt else
  try_catch
    (run_statement (cleanupExpiredStatement stmts now) >>
     cfg <- gets configuration ;;
     match Configuration.maxItems cfg with
     | Some maxItems =>
         if truthy maxItems
         then run_statement (cleanupLruStatement stmts maxItems)
         else ret tt
     | None => ret tt
     end)
    (λ ex, modify (console_error ex)).

(** [checkForExpiredItems], the debounced function: with [immediate] the
    call goes through when no timer is pending, and every call restarts
    the quiet period. *)
Definition checkForExpiredItems (now : Z) : M unit :=
  d <- gets debounced ;;
  let callNow := negb (timeoutId d) in
  modify (set_debounced {| timeoutId := true; timestamp := now |}) >>
  if callNow then sweep now else ret tt.

(** The timer callback of the wrapper: re-armed while the last call is less
    than [DEBOUNCE_WAIT] old, cleared otherwise; with [immediate] it never
    calls the function. *)
Definition later (now : Z) (d : Debounced) : Debounced :=
  let last := (now - timestamp d)%Z in
  if bool_decide (last < DEBOUNCE_WAIT)%Z && bool_decide (0 ≤ last)%Z
  then d
  else {| timeoutId := false; timestamp := timestamp d |}.

(** What the event loop can run for this object. *)
Inductive Event : Type :=
| IntervalFires (now : Z)        (* setInterval(this.checkForExpiredItems, 1000) *)
| ImmediateRuns (now : Z)        (* a callback queued by set *)
| DebounceTimerFires (now : Z).

Definition fire (e : Event) : M unit :=
  match e with
  | IntervalFires now =>
      armed <- gets checkInterval ;;
      if armed then checkForExpiredItems now else ret tt
  | ImmediateRuns now =>
      n <- gets immediates ;;
      match n with
      | O => ret tt
      | S n' => modify (set_immediates n') >> checkForExpiredItems now
      end
  | DebounceTimerFires now =>
      d <- gets debounced ;;
      if timeoutId d then modify (set_debounced (later now d)) else ret tt
  end.

(** The calls a user of the object can make after construction. *)
Inductive Call : Type :=
| CallGet (key : string) (now : Z)
| CallSet (key : string) (value : Value) (opts : Opts.t) (date_now now : Z)
| CallDelete (key : string)
| CallClear.

Definition call (c : Call) : M (option Value) :=
  match c with
  | CallGet key now => v <- get key now ;; ret (Some v)
  | CallSet key value opts date_now now => set key value opts date_now now >> ret None
  | CallDelete key => delete key >> ret None
  | CallClear => clear >> ret None
  end.

(** A sequence of calls, with the outcome of each. *)
Fixpoint calls (cs : list Call) (s : t) : list (Exn + option Value) * t :=
  match cs with
  | [] => ([], s)
  | c :: cs' =>
      let '(r, s') := call c s in
      let '(rs, s'') := calls cs' s' in
      (r :: rs, s'')
  end.

(** A sequence of events of the event loop. *)
Fixpoint fires (es : list Event) (s : t) : list (Exn + unit) * t :=
  match es with
  | [] => ([], s)
  | e :: es' =>
      let '(r, s') := fire e s in
      let '(rs, s'') := fires es' s' in
      (r :: rs, s'')
  end.

End Methods.
End SqliteCache.

(** ** A small codec to run the model on

    A fragment of CBOR (the simple values and byte strings shorter than
    65536 bytes) and a run-length compressor, in the roles of [cbor] and
    [zlib].  They are only used to evaluate the model on concrete inputs. *)

Inductive JsValue : Type :=
| JsUndefined
| JsNull
| JsBool (b : bool)
| JsBuffer (b : Buffer).

Definition byte_of_nat (n : nat) : Byte.byte :=
  nullish (Byte.of_nat n) Byte.x00.

Definition demo_encode (v : JsValue) : Buffer :=
  match v with
  | JsUndefined => [Byte.xf7]
  | JsNull => [Byte.xf6]
  | JsBool false => [Byte.xf4]
  | JsBool true => [Byte.xf5]
  | JsBuffer b =>
      Byte.x59 :: byte_of_nat (length b / 256) :: byte_of_nat (length b mod 256) :: b
  end.

Definition demo_decode (b : Buffer) : Exn + JsValue :=
  match b with
  | [Byte.xf7] => inr JsUndefined
  | [Byte.xf6] => inr JsNull
  | [Byte.xf4] => inr (JsBool false)
  | [Byte.xf5] => inr (JsBool true)
  | Byte.x59 :: hi :: lo :: payload =>
      if bool_decide (Byte.to_nat hi * 256 + Byte.to_nat lo = length payload)
      then inr (JsBuffer payload)
      else inl CborError
  | _ => inl CborError
  end.

(** Runs of equal bytes, at most 255 long, as (count, byte) pairs. *)
Fixpoint demo_runs (b : Buffer) : list (nat * Byte.byte) :=
  match b with
  | [] => []
  | x :: b' =>
      match demo_runs b' with
      | (n, y) :: rest =>
          if Byte.eqb x y && bool_decide (n < 255)
          then (S n, y) :: rest
          else (1, x) :: (n, y) :: rest
      | [] => [(1, x)]
      end
  end.

Definition demo_compress (b : Buffer) : Buffer :=
  flat_map (λ run : nat * Byte.byte, [byte_of_nat run.1; run.2]) (demo_runs b).

Fixpoint demo_decompress_fuel (fuel : nat) (b : Buffer) : Exn + Buffer :=
  match fuel, b with
  | _, [] => inr []
  | S fuel', n :: x :: b' =>
      match demo_decompress_fuel fuel' b' with
      | inr rest => inr (replicate (Byte.to_nat n) x ++ rest)
      | inl e => inl e
      end
  | _, _ => inl ZlibError
  end.

Definition demo_decompress (b : Buffer) : Exn + Buffer :=
  demo_decompress_fuel (length b) b.

#[global] Instance demo_codec : Codec JsValue := {|
  undefined := JsUndefined;
  cbor_encode := demo_encode;
  cbor_decode := demo_decode;
  compress := demo_compress;
  decompress := demo_decompress |}.

Definition demo_configuration : Configuration.t := {|
  Configuration.database := ":memory:";
  Configuration.defaultTtlMs := Some 3600000%Z;
  Configuration.maxItems := Some 2%Z;
  Configuration.compress := Some true;
  Configuration.cacheTableName := None |}.

Definition no_opts : Opts.t := {| Opts.ttlMs := None; Opts.compress := None |}.

Definition ttl_opts (ttl : Z) : Opts.t := {| Opts.ttlMs := Some ttl; Opts.compress := None |}.

(** A fresh cache on an empty in-memory database. *)
Definition demo_cache : SqliteCache.t := {|
  SqliteCache.configuration := demo_configuration;
  SqliteCache.db := {| table := ∅; isOpen := true |};
  SqliteCache.checkInterval := true;
  SqliteCache.isClosed := false;
  SqliteCache.debounced := {| timeoutId := false; timestamp := 0 |};
  SqliteCache.immediates := 0;
  SqliteCache.console := [] |}.

(** [Buffer.alloc(n, 0)] *)
Definition zeros (n : nat) : JsValue := JsBuffer (replicate n Byte.x00).

(** A cache holding the key ["foo"], written at time 1000 with a TTL of
    20 ms. *)
Definition demo_cache_foo : SqliteCache.t :=
  (SqliteCache.set initSqliteCache "foo" (JsBool true) (ttl_opts 20) 1000 1000 demo_cache).2.

(** Three keys written at times 1000, 1001 and 1002, no sweep run yet. *)
Definition demo_cache_three : SqliteCache.t :=
  let s1 := (SqliteCache.set initSqliteCache "a" JsNull no_opts 1000 1000 demo_cache).2 in
  let s2 := (SqliteCache.set initSqliteCache "b" JsNull no_opts 1001 1001 s1).2 in
  (SqliteCache.set initSqliteCache "c" JsNull no_opts 1002 1002 s2).2.

(** [demo_cache_foo] after [close()]. *)
Definition demo_cache_closed : SqliteCache.t :=
  (SqliteCache.close initSqliteCache demo_cache_foo).2.

(** A storage whose LRU statement fails. *)
Definition failing_lru : PreparedStatements := {|
  db_close := db_close initSqliteCache;
  getStatement := getStatement initSqliteCache;
  setStatement := setStatement initSqliteCache;
  deleteStatement := deleteStatement initSqliteCache;
  clearStatement := clearStatement initSqliteCache;
  cleanupExpiredStatement := cleanupExpiredStatement initSqliteCache;
  cleanupLruStatement := λ _ _, inl (SqliteError "disk I/O error") |}.

(** ** Vocabulary of the properties *)

(** What [get] makes of a row it fetched: the bytes, gunzipped when the
    row's [compressed] flag is set, then decoded. *)
Definition decoded {Value : Type} `{Codec Value} (r : Row) : Exn + Value :=
  match (if truthy (compressed r) then decompress (value r) else inr (value r)) with
  | inl e => inl e
  | inr bytes => cbor_decode bytes
  end.

(** The compression flag that a [set] call starts from: the per-call
    override if given, else the instance default, else false. *)
Definition effective_compression (cfg : Configuration.t) (opts : Opts.t) : bool :=
  match Opts.compress opts with
  | Some b => b
  | None => match Configuration.compress cfg with
            | Some b => b
            | None => false
            end
  end.

(** The compression decision as the specification words it, from the
    effective flag and the encoded bytes [e]: the bytes to store and the
    [compressed] column. *)
Definition stored_form {Value : Type} `{Codec Value} (flag : bool) (e : Buffer) : Buffer * Z :=
  if negb flag || bool_decide (length e < 1024) then (e, 0%Z)
  else if bool_decide (length e ≤ length (compress e)) then (e, 0%Z)
  else (compress e, 1%Z).

(** The [expires] column that a [set] at time [date_now] writes. *)
Definition stored_expires (opts : Opts.t) (date_now : Z) : option Z :=
  match Opts.ttlMs opts with
  | Some ttl => new_Date_getTime (date_now + ttl)
  | None => None
  end.

(** No sweep is pending for the object: no request queued by [set] waits in
    the event loop and the timer of the debounce wrapper is not armed. *)
Definition no_pending_sweep (s : SqliteCache.t) : Prop :=
  SqliteCache.immediates s = 0 ∧ timeoutId (SqliteCache.debounced s) = false.

(** ** Identifier quoting *)

(** The double-quote character, code 34. *)
Definition dquote : Ascii.ascii :=
  Ascii.Ascii false true false false false true false false.

(** The [identifier.replace] of [escapeIdentifier]: every double quote of
    the identifier (the global pattern) is replaced by two. *)
Fixpoint double_quotes (identifier : string) : string :=
  match identifier with
  | EmptyString => EmptyString
  | String c rest =>
      if Ascii.eqb c dquote
      then String dquote (String dquote (double_quotes rest))
      else String c (double_quotes rest)
  end.

(** [escapeIdentifier]: the identifier with its quotes doubled, between two
    double quotes. *)
Definition escapeIdentifier (identifier : string) : string :=
  String dquote (double_quotes identifier +:+ String dquote EmptyString).

(** How SQL reads a quoted identifier: after the opening quote, two quotes
    in a row stand for one quote of the name and a single quote ends it.
    The result is the name and the text after the closing quote; [None] if
    the text does not start with a quote or the identifier is not closed. *)
Fixpoint read_quoted_body (sql : string) : option (string * string) :=
  match sql with
  | EmptyString => None
  | String c rest =>
      if Ascii.eqb c dquote
      then match rest with
           | String c' rest' =>
               if Ascii.eqb c' dquote
               then match read_quoted_body rest' with
                    | Some (name, after) => Some (String dquote name, after)
                    | None => None
                    end
               else Some (EmptyString, rest)
           | EmptyString => Some (EmptyString, EmptyString)
           end
      else match read_quoted_body rest with
           | Some (name, after) => Some (String c name, after)
           | None => None
           end
  end.

Definition read_quoted_identifier (sql : string) : option (string * string) :=
  match sql with
  | String c rest => if Ascii.eqb c dquote then read_quoted_body rest else None
  | EmptyString => None
  end.

Definition starts_with_dquote (sql : string) : bool :=
  match sql with
  | String c _ => Ascii.eqb c dquote
  | EmptyString => false
  end.

(** The table name of the test "cacheTableName with double quotes". *)
Definition table_with_quotes : string :=
  "table" +:+ String dquote ("with" +:+ String dquote "quotes").

(** ** Histories of a cache object *)

(** One thing that happens to a cache object: a call of a public method,
    a call of [close], or a callback of the event loop. *)
Inductive Step {Value : Type} : Type :=
| UserCall (c : @SqliteCache.Call Value)
| UserClose
| Background (e : SqliteCache.Event).

Arguments Step : clear implicits.

Definition step {Value : Type} {codec : Codec Value} (stmts : PreparedStatements)
  (st : Step Value) : SqliteCache.M (option Value) :=
  match st with
  | UserCall c => SqliteCache.call stmts c
  | UserClose => SqliteCache.bind (SqliteCache.close stmts) (λ _, SqliteCache.ret None)
  | Background e => SqliteCache.bind (SqliteCache.fire stmts e) (λ _, SqliteCache.ret None)
  end.

(** A history, with the outcome of each step. *)
Fixpoint steps {Value : Type} {codec : Codec Value} (stmts : PreparedStatements)
  (sts : list (Step Value)) (s : SqliteCache.t) : list (Exn + option Value) * SqliteCache.t :=
  match sts with
  | [] => ([], s)
  | st :: sts' =>
      let '(r, s') := step stmts st s in
      let '(rs, s'') := steps stmts sts' s' in
      (r :: rs, s'')
  end.

(** An event that asks for a sweep (the interval timer or a callback queued
    by [set]), as opposed to the timer of the debounce wrapper. *)
Definition is_request (e : SqliteCache.Event) : bool :=
  match e with
  | SqliteCache.IntervalFires _ | SqliteCache.ImmediateRuns _ => true
  | SqliteCache.DebounceTimerFires _ => false
  end.

(** A storage on which every statement and [close] raise. *)
Definition io_error : Exn := SqliteError "disk I/O error".

Definition broken_storage : PreparedStatements := {|
  db_close := λ _, inl io_error;
  getStatement := λ _ _ _, inl io_error;
  setStatement := λ _ _ _ _ _ _, inl io_error;
  deleteStatement := λ _ _, inl io_error;
  clearStatement := λ _, inl io_error;
  cleanupExpiredStatement := λ _ _, inl io_error;
  cleanupLruStatement := λ _ _, inl io_error |}.


(** A cache without a capacity bound, holding the key ["foo"] written at
    time 1000 with a TTL of 20 ms. *)
Definition demo_unbounded_foo : SqliteCache.t :=
  (SqliteCache.set initSqliteCache "foo" (JsBool true) (ttl_opts 20) 1000 1000
     {| SqliteCache.configuration :=
          {| Configuration.database := ":memory:";
             Configuration.defaultTtlMs := None;
             Configuration.maxItems := None;
             Configuration.compress := None;
             Configuration.cacheTableName := None |};
        SqliteCache.db := {| table := ∅; isOpen := true |};
        SqliteCache.checkInterval := true;
        SqliteCache.isClosed := false;
        SqliteCache.debounced := {| timeoutId := false; timestamp := 0 |};
        SqliteCache.immediates := 0;
        SqliteCache.console := [] |}).2.

(** The row of ["foo"] in [demo_cache_foo]. *)
Definition demo_row_foo : Row :=
  {| value := [Byte.xf5]; expires := Some 1020%Z; lastAccess := 1000; compressed := 0 |}.

(** The row of ["a"] in [demo_cache_three]. *)
Definition demo_row_a : Row :=
  {| value := [Byte.xf6]; expires := None; lastAccess := 1000; compressed := 0 |}.

(** A short history: a write, the sweep it queued, a read, a close, and a
    write after the close. *)
Definition demo_history : list (Step JsValue) :=
  [ UserCall (SqliteCache.CallSet "foo" (JsBool true) (ttl_opts 20) 1000 1000);
    Background (SqliteCache.ImmediateRuns 1001);
    UserCall (SqliteCache.CallGet "foo" 1002);
    UserClose;
    UserCall (SqliteCache.CallSet "bar" JsNull no_opts 1003 1003);
    Background (SqliteCache.IntervalFires 2000) ].


(** * Properties *)

(** ** The statements *)

Section Statements.
Implicit Types (t : gmap string Row) (r : Row) (key k : string) (now : Z).

Lemma expired_true now r :
  expired now r = true ↔ ∃ e, expires r = Some e ∧ (e < now)%Z.
Proof.
  unfold expired. destruct (expires r) as [e|].
  - rewrite Z.ltb_lt. split; [eauto | intros (e' & [= <-] & ?); done].
  - split; [done | intros (e' & [=] & _)].
Qed.

Lemma expired_false now r :
  expired now r = false ↔ expires r = None ∨ ∃ e, expires r = Some e ∧ (now ≤ e)%Z.
Proof.
  unfold expired. destruct (expires r) as [e|].
  - rewrite Z.ltb_ge. split; [eauto | intros [[=] | (e' & [= <-] & ?)]; done].
  - split; [auto | done].
Qed.

Lemma live_true now r :
  live now r = true ↔ expires r = None ∨ ∃ e, expires r = Some e ∧ (now < e)%Z.
Proof.
  unfold live. destruct (expires r) as [e|].
  - rewrite Z.ltb_lt. split; [eauto | intros [[=] | (e' & [= <-] & ?)]; done].
  - split; [auto | done].
Qed.

Lemma sql_cleanupExpired_lookup now t k r :
  sql_cleanupExpired now t !! k = Some r ↔ t !! k = Some r ∧ expired now r = false.
Proof. unfold sql_cleanupExpired. by rewrite map_lookup_filter_Some. Qed.

Lemma sql_cleanupExpired_subseteq now t : sql_cleanupExpired now t ⊆ t.
Proof. apply map_filter_subseteq. Qed.

(** *** The order of the LRU statement *)

#[local] Instance byLastAccessDesc_total : Total byLastAccessDesc.
Proof. intros a b. unfold byLastAccessDesc. lia. Qed.

#[local] Instance byLastAccessDesc_trans : Transitive byLastAccessDesc.
Proof. intros a b c. unfold byLastAccessDesc. lia. Qed.

Lemma order_by_Permutation t : order_by_lastAccess_desc t ≡ₚ map_to_list t.
Proof. apply merge_sort_Permutation. Qed.

Lemma order_by_sorted t : StronglySorted byLastAccessDesc (order_by_lastAccess_desc t).
Proof. apply StronglySorted_merge_sort; apply _. Qed.

Lemma order_by_elem_of t k r : (k, r) ∈ order_by_lastAccess_desc t ↔ t !! k = Some r.
Proof. by rewrite order_by_Permutation, elem_of_map_to_list. Qed.

Lemma order_by_NoDup t : NoDup (order_by_lastAccess_desc t).*1.
Proof. rewrite order_by_Permutation. apply NoDup_fst_map_to_list. Qed.

Lemma order_by_NoDup_take n t : NoDup (take n (order_by_lastAccess_desc t)).*1.
Proof.
  rewrite fmap_take.
  eapply sublist_NoDup; [apply order_by_NoDup | apply sublist_take].
Qed.

Lemma order_by_length t : length (order_by_lastAccess_desc t) = size t.
Proof. by rewrite order_by_Permutation, length_map_to_list. Qed.

(** The rows that the LRU statement keeps are the first [maxItems] rows of
    the order. *)
Lemma sql_cleanupLru_lookup maxItems t k r :
  sql_cleanupLru maxItems t !! k = Some r
  ↔ (k, r) ∈ take (Z.to_nat maxItems) (order_by_lastAccess_desc t).
Proof.
  unfold sql_cleanupLru, lru. rewrite map_lookup_filter_Some. simpl.
  set (n := Z.to_nat maxItems). set (l := order_by_lastAccess_desc t).
  pose proof (order_by_NoDup t) as Hnd. fold l in Hnd.
  rewrite <- (take_drop n l), fmap_app in Hnd.
  apply NoDup_app in Hnd as (_ & Hdisj & _).
  rewrite <- order_by_elem_of. fold l.
  split.
  - intros [Hin Hout]. rewrite <- (take_drop n l) in Hin.
    apply elem_of_app in Hin as [Hin | Hin]; [done |].
    exfalso. apply Hout. apply list_elem_of_fmap. by exists (k, r).
  - intros Hin. split.
    + rewrite <- (take_drop n l). apply elem_of_app. by left.
    + apply (Hdisj k). apply list_elem_of_fmap. by exists (k, r).
Qed.

Lemma sql_cleanupLru_list maxItems t :
  sql_cleanupLru maxItems t
  = list_to_map (take (Z.to_nat maxItems) (order_by_lastAccess_desc t)).
Proof.
  apply map_eq. intros k. apply option_eq. intros r.
  rewrite sql_cleanupLru_lookup.
  rewrite <- elem_of_list_to_map; [done |].
  apply order_by_NoDup_take.
Qed.

Lemma sql_cleanupLru_size maxItems t :
  size (sql_cleanupLru maxItems t) = Z.to_nat maxItems `min` size t.
Proof.
  rewrite sql_cleanupLru_list, map_size_list_to_map.
  - by rewrite length_take, order_by_length.
  - apply order_by_NoDup_take.
Qed.

Lemma sql_cleanupLru_subseteq maxItems t : sql_cleanupLru maxItems t ⊆ t.
Proof. apply map_filter_subseteq. Qed.

(** A deleted row was not accessed later than any row that is kept. *)
Lemma sql_cleanupLru_oldest maxItems t k r k' r' :
  sql_cleanupLru maxItems t !! k = Some r →
  t !! k' = Some r' →
  sql_cleanupLru maxItems t !! k' = None →
  (lastAccess r' ≤ lastAccess r)%Z.
Proof.
  intros Hkept Hrow Hgone.
  apply sql_cleanupLru_lookup in Hkept.
  assert ((k', r') ∈ drop (Z.to_nat maxItems) (order_by_lastAccess_desc t)) as Hdrop.
  { apply order_by_elem_of in Hrow.
    rewrite <- (take_drop (Z.to_nat maxItems)) in Hrow.
    apply elem_of_app in Hrow as [Hin | Hin]; [| done].
    apply sql_cleanupLru_lookup in Hin. congruence. }
  pose proof (order_by_sorted t) as Hs.
  rewrite <- (take_drop (Z.to_nat maxItems)) in Hs.
  exact (StronglySorted_app_1_elem_of _ _ _ _ _ Hs Hkept Hdrop).
Qed.

End Statements.

(** ** The methods on an open cache *)

Ltac run_method :=
  unfold SqliteCache.get, SqliteCache.set, SqliteCache.delete, SqliteCache.clear,
    SqliteCache.close, SqliteCache.sweep, SqliteCache.checkForExpiredItems,
    SqliteCache.bind, SqliteCache.gets, SqliteCache.throw, SqliteCache.ret,
    SqliteCache.modify, SqliteCache.await, SqliteCache.run_statement,
    SqliteCache.get_statement, SqliteCache.try_catch.

Section OpenCache.
Context {Value : Type} {codec : Codec Value}.
Implicit Types (s : SqliteCache.t) (key k : string) (now : Z) (r : Row).

Lemma set_db_same s :
  SqliteCache.set_db (with_table (table (SqliteCache.db s)) (SqliteCache.db s)) s = s.
Proof. by destruct s as [? [? ?] ? ? ? ? ?]. Qed.

Lemma run_open f (c : Connection) :
  isOpen c = true → run f c = inr (with_table (f (table c)) c).
Proof. intros Ho. unfold run. by rewrite Ho. Qed.

(** [get] on an open cache, case by case on the row of [key]. *)
Lemma get_open s key now :
  SqliteCache.isClosed s = false → isOpen (SqliteCache.db s) = true →
  SqliteCache.get initSqliteCache key now s =
    match table (SqliteCache.db s) !! key with
    | Some r =>
        if live now r
        then (decoded r,
              SqliteCache.set_db
                (with_table (<[key := touch now r]> (table (SqliteCache.db s)))
                   (SqliteCache.db s)) s)
        else (inr undefined, s)
    | None => (inr undefined, s)
    end.
Proof.
  intros Hc Ho. run_method. rewrite Hc. cbn [getStatement initSqliteCache].
  rewrite Ho. unfold sql_get.
  destruct (table (SqliteCache.db s) !! key) as [r|] eqn:Hr.
  - destruct (live now r) eqn:Hl.
    + cbn. unfold decoded. destruct (truthy (compressed r)).
      * destruct (decompress (value r)); [done |]. by destruct (cbor_decode _).
      * by destruct (cbor_decode _).
    + cbn. by rewrite set_db_same.
  - cbn. by rewrite set_db_same.
Qed.

(** C3. [get(key)] on an open cache.  If the table holds a row for [key]
    whose [expires] is null or strictly greater than the current time, the
    call returns the decoded value of that row (the codec's error if the
    stored bytes do not decode) and the row's [lastAccess] becomes the
    current time, its [value], [expires] and [compressed] staying as they
    were.  Otherwise (no row, or an expired row) the call returns
    [undefined] and the table is unchanged.  In both cases every other row
    is unchanged, and so is every field of the cache object other than the
    table. *)
Theorem get_touches_only_the_live_row s key now :
  SqliteCache.isClosed s = false →
  isOpen (SqliteCache.db s) = true →
  let t := table (SqliteCache.db s) in
  let out := SqliteCache.get initSqliteCache key now s in
  let t' := table (SqliteCache.db out.2) in
  (∀ r, t !! key = Some r → live now r = true →
     out.1 = decoded r ∧
     t' !! key = Some {| value := value r; expires := expires r;
                         lastAccess := now; compressed := compressed r |})
  ∧ (t !! key = None ∨ (∃ r, t !! key = Some r ∧ live now r = false) →
     out.1 = inr undefined ∧ t' = t)
  ∧ (∀ k, k ≠ key → t' !! k = t !! k)
  ∧ out.2 = SqliteCache.set_db (with_table t' (SqliteCache.db s)) s.
Proof.
  intros Hc Ho t out t'. subst out t'. rewrite (get_open s key now Hc Ho). fold t.
  split; [| split; [| split]].
  - intros r Hr Hl. rewrite Hr, Hl. cbn. by rewrite lookup_insert_eq.
  - intros [-> | (r & -> & ->)]; done.
  - intros k Hk. destruct (t !! key) as [r|]; [| done].
    destruct (live now r); [| done]. cbn. by rewrite lookup_insert_ne.
  - destruct (t !! key) as [r|]; [| by rewrite set_db_same].
    destruct (live now r); [done | by rewrite set_db_same].
Qed.

(** The TTL statement on an open connection. *)
Lemma cleanupExpired_open now (c : Connection) :
  isOpen c = true →
  cleanupExpiredStatement initSqliteCache now c
  = inr (with_table (sql_cleanupExpired now (table c)) c).
Proof. apply run_open. Qed.

(** C5. The TTL sweep, run at time [now] on an open connection, deletes
    exactly the rows whose [expires] is non-null and strictly less than
    [now]: such a row is gone afterwards, a row whose [expires] is null or
    greater than or equal to [now] is still there unchanged, and no row
    appears. *)
Theorem ttl_sweep_deletes_exactly_the_expired now (c : Connection) :
  isOpen c = true →
  ∃ c', cleanupExpiredStatement initSqliteCache now c = inr c' ∧
    isOpen c' = true ∧
    (∀ k r e, table c !! k = Some r → expires r = Some e → (e < now)%Z →
       table c' !! k = None) ∧
    (∀ k r, table c !! k = Some r →
       expires r = None ∨ (∃ e, expires r = Some e ∧ (now ≤ e)%Z) →
       table c' !! k = Some r) ∧
    (∀ k, table c !! k = None → table c' !! k = None).
Proof.
  intros Ho. eexists. split; [by apply cleanupExpired_open |].
  cbn. split; [done |]. repeat split.
  - intros k r e Hr He Hlt. apply eq_None_not_Some. intros [r' Hr'].
    apply sql_cleanupExpired_lookup in Hr' as [Hr' Hx].
    assert (r' = r) as -> by congruence.
    apply expired_false in Hx as [Hx | (e' & Hx & ?)]; [congruence |].
    assert (e' = e) by congruence. lia.
  - intros k r Hr Hx. apply sql_cleanupExpired_lookup. split; [done |].
    by apply expired_false.
  - intros k Hk. apply eq_None_not_Some. intros [r' Hr'].
    apply sql_cleanupExpired_lookup in Hr' as [Hr' _]. congruence.
Qed.

(** C10. A row whose [expires] equals the current time [e].  [get(key)] at
    time [e] returns [undefined] and changes nothing ([lastAccess] is not
    updated); the TTL sweep at time [e] keeps the row; and the TTL sweep at
    any time [now] deletes the row exactly when [e < now]. *)
Theorem expiry_instant_is_dead_for_get_and_kept_by_sweep s key r e :
  SqliteCache.isClosed s = false →
  isOpen (SqliteCache.db s) = true →
  table (SqliteCache.db s) !! key = Some r →
  expires r = Some e →
  SqliteCache.get initSqliteCache key e s = (inr undefined, s)
  ∧ (∃ c, cleanupExpiredStatement initSqliteCache e (SqliteCache.db s) = inr c
          ∧ table c !! key = Some r)
  ∧ (∀ now, ∃ c,
       cleanupExpiredStatement initSqliteCache now (SqliteCache.db s) = inr c
       ∧ (table c !! key = None ↔ (e < now)%Z)).
Proof.
  intros Hc Ho Hr He. repeat split.
  - rewrite (get_open s key e Hc Ho), Hr. unfold live. rewrite He.
    by rewrite Z.ltb_irrefl.
  - eexists. split; [by apply cleanupExpired_open |]. cbn.
    apply sql_cleanupExpired_lookup. split; [done |].
    unfold expired. rewrite He. by rewrite Z.ltb_irrefl.
  - intros now. eexists. split; [by apply cleanupExpired_open |]. cbn.
    rewrite eq_None_not_Some. unfold is_Some. split.
    + intros Hgone. destruct (Z.lt_ge_cases e now) as [Hlt | Hge]; [done |].
      exfalso. apply Hgone. exists r. apply sql_cleanupExpired_lookup.
      split; [done |]. apply expired_false. eauto.
    + intros Hlt [r' Hr']. apply sql_cleanupExpired_lookup in Hr' as [Hr' Hx].
      assert (r' = r) as -> by congruence.
      apply expired_false in Hx as [Hx | (e' & Hx & ?)]; [congruence |].
      assert (e' = e) by congruence. lia.
Qed.

(** [set] on an open cache: one row is written and one sweep is requested. *)
Lemma set_open s key (v : Value) opts date_now now :
  SqliteCache.isClosed s = false → isOpen (SqliteCache.db s) = true →
  SqliteCache.set initSqliteCache key v opts date_now now s =
    let form := stored_form (effective_compression (SqliteCache.configuration s) opts)
                  (cbor_encode v) in
    (inr (),
     SqliteCache.set_immediates (S (SqliteCache.immediates s))
       (SqliteCache.set_db
          (with_table
             (<[key := {| value := form.1; expires := stored_expires opts date_now;
                          lastAccess := now; compressed := form.2 |}]>
                (table (SqliteCache.db s)))
             (SqliteCache.db s)) s)).
Proof.
  intros Hc Ho. run_method. rewrite Hc. cbn [setStatement initSqliteCache].
  unfold stored_form, effective_compression, stored_expires, nullish,
    COMPRESSION_MIN_LENGTH, sql_set.
  destruct (Opts.ttlMs opts) as [ttl|];
    destruct (Opts.compress opts) as [[|]|];
    destruct (Configuration.compress (SqliteCache.configuration s)) as [[|]|];
    cbn [negb orb andb];
    repeat case_bool_decide; try lia;
    rewrite run_open by done; reflexivity.
Qed.

End OpenCache.

Section Writes.
Context {Value : Type} {codec : Codec Value}.
Implicit Types (s : SqliteCache.t) (key k : string) (now : Z) (r : Row).

Lemma new_Date_getTime_Some t e : new_Date_getTime t = Some e → e = t.
Proof. unfold new_Date_getTime. case_decide; congruence. Qed.

Lemma new_Date_getTime_in_range t :
  (Z.abs t ≤ 8640000000000000)%Z → new_Date_getTime t = Some t.
Proof. intros Ht. unfold new_Date_getTime. by case_decide. Qed.

(** C1. [set] on an open cache, whatever the configuration (its
    [defaultTtlMs] included).  When [opts.ttlMs] is omitted the stored row
    has a null [expires].  A stored row with a non-null [expires] only comes
    from an explicit [opts.ttlMs], and its [expires] is then the current
    time plus [ttlMs]; an explicit [ttlMs] that keeps that sum within the
    range of [Date] does produce it. *)
Theorem set_applies_only_the_per_call_ttl s key (v : Value) opts date_now now :
  SqliteCache.isClosed s = false →
  isOpen (SqliteCache.db s) = true →
  let t' := table (SqliteCache.db (SqliteCache.set initSqliteCache key v opts date_now now s).2) in
  ∃ r, t' !! key = Some r ∧
    (Opts.ttlMs opts = None → expires r = None) ∧
    (∀ e, expires r = Some e →
       ∃ ttl, Opts.ttlMs opts = Some ttl ∧ e = (date_now + ttl)%Z) ∧
    (∀ ttl, Opts.ttlMs opts = Some ttl →
       (Z.abs (date_now + ttl) ≤ 8640000000000000)%Z →
       expires r = Some (date_now + ttl)%Z).
Proof.
  intros Hc Ho t'. subst t'. rewrite (set_open s key v opts date_now now Hc Ho).
  cbn. eexists. split; [apply lookup_insert_eq |]. cbn. unfold stored_expires.
  split; [| split].
  - by intros ->.
  - intros e He. destruct (Opts.ttlMs opts) as [ttl|]; [| done].
    exists ttl. split; [done |]. by apply new_Date_getTime_Some.
  - intros ttl -> Hrange. by apply new_Date_getTime_in_range.
Qed.

(** C2. [set] on an open cache stores, for the encoded bytes [e] of the
    value and the effective compression flag (the per-call option if given,
    else the instance default, else false): [e] with [compressed = 0] when
    the flag is false or [e] is shorter than 1024 bytes; otherwise [e] with
    [compressed = 0] when the compressed bytes are not shorter than [e], and
    the compressed bytes with [compressed = 1] when they are.  The stored
    bytes are never longer than [e]. *)
Theorem set_compression_decision s key (v : Value) opts date_now now :
  SqliteCache.isClosed s = false →
  isOpen (SqliteCache.db s) = true →
  let e := cbor_encode v in
  let flag := effective_compression (SqliteCache.configuration s) opts in
  let t' := table (SqliteCache.db (SqliteCache.set initSqliteCache key v opts date_now now s).2) in
  ∃ r, t' !! key = Some r ∧
    (flag = false ∨ length e < 1024 → value r = e ∧ compressed r = 0%Z) ∧
    (flag = true → 1024 ≤ length e → length e ≤ length (compress e) →
       value r = e ∧ compressed r = 0%Z) ∧
    (flag = true → 1024 ≤ length e → length (compress e) < length e →
       value r = compress e ∧ compressed r = 1%Z) ∧
    length (value r) ≤ length e.
Proof.
  intros Hc Ho e flag t'. subst t'. rewrite (set_open s key v opts date_now now Hc Ho).
  cbn. eexists. split; [apply lookup_insert_eq |]. cbn. fold e flag.
  unfold stored_form. destruct flag; cbn [negb orb];
    repeat case_bool_decide; cbn [fst snd];
    (split; [| split; [| split]]); intros; try done; try lia;
    repeat match goal with Hx : _ ∨ _ |- _ => destruct Hx end; try done; lia.
Qed.

(** *** The sweep on an open cache *)

(** The LRU part of a sweep cycle: skipped without a (truthy) [maxItems]. *)
Lemma sweep_open s now :
  SqliteCache.isClosed s = false → isOpen (SqliteCache.db s) = true →
  SqliteCache.sweep initSqliteCache now s =
    let t1 := sql_cleanupExpired now (table (SqliteCache.db s)) in
    let t2 := match Configuration.maxItems (SqliteCache.configuration s) with
              | Some maxItems => if truthy maxItems then sql_cleanupLru maxItems t1 else t1
              | None => t1
              end in
    (inr (), SqliteCache.set_db (with_table t2 (SqliteCache.db s)) s).
Proof.
  intros Hc Ho. run_method. rewrite Hc.
  cbn [cleanupExpiredStatement cleanupLruStatement initSqliteCache].
  rewrite run_open by done. cbn.
  destruct (Configuration.maxItems (SqliteCache.configuration s)) as [n|]; [| done].
  destruct (truthy n); [| done].
  rewrite run_open by done. done.
Qed.

Lemma parse_maxItems_positive cfg cfg' n :
  configurationSchema_parse cfg = inr cfg' →
  Configuration.maxItems cfg = Some n → (0 < n)%Z.
Proof.
  unfold configurationSchema_parse. intros Hp Hn. rewrite Hn in Hp. cbn in Hp.
  destruct (positive_optional _); cbn in Hp; [| done].
  destruct (0 <? n)%Z eqn:Hpos; [| done]. by apply Z.ltb_lt.
Qed.


End Writes.

(** ** Round trip *)

Section RoundTrip.
Context {Value : Type} {codec : Codec Value}.
Implicit Types (s : SqliteCache.t) (key k : string) (now : Z) (r : Row).

Lemma checkForExpiredItems_open s now :
  SqliteCache.isClosed s = false → isOpen (SqliteCache.db s) = true →
  let s' := (SqliteCache.checkForExpiredItems initSqliteCache now s).2 in
  SqliteCache.isClosed s' = false ∧ isOpen (SqliteCache.db s') = true ∧
  table (SqliteCache.db s') ⊆ table (SqliteCache.db s).
Proof.
  intros Hc Ho. unfold SqliteCache.checkForExpiredItems, SqliteCache.bind,
    SqliteCache.gets, SqliteCache.modify, SqliteCache.ret.
  cbn -[SqliteCache.sweep].
  destruct (timeoutId (SqliteCache.debounced s)); cbn -[SqliteCache.sweep]; [done |].
  rewrite sweep_open by done. cbn. split; [done |]. split; [done |].
  destruct (Configuration.maxItems _) as [n|]; [| apply sql_cleanupExpired_subseteq].
  destruct (truthy n); [| apply sql_cleanupExpired_subseteq].
  etrans; [apply sql_cleanupLru_subseteq | apply sql_cleanupExpired_subseteq].
Qed.

(** Background events on an open cache keep it open and only delete rows. *)
Lemma fire_open s e :
  SqliteCache.isClosed s = false → isOpen (SqliteCache.db s) = true →
  let s' := (SqliteCache.fire initSqliteCache e s).2 in
  SqliteCache.isClosed s' = false ∧ isOpen (SqliteCache.db s') = true ∧
  table (SqliteCache.db s') ⊆ table (SqliteCache.db s).
Proof.
  intros Hc Ho. destruct e as [now | now | now];
    cbn -[SqliteCache.checkForExpiredItems];
    unfold SqliteCache.bind, SqliteCache.gets, SqliteCache.modify, SqliteCache.ret;
    cbn -[SqliteCache.checkForExpiredItems].
  - destruct (SqliteCache.checkInterval s); [| done].
    by apply checkForExpiredItems_open.
  - destruct (SqliteCache.immediates s) as [| n]; [done |].
    by apply (checkForExpiredItems_open (SqliteCache.set_immediates n s)).
  - by destruct (timeoutId (SqliteCache.debounced s)).
Qed.

Lemma fires_open s es :
  SqliteCache.isClosed s = false → isOpen (SqliteCache.db s) = true →
  let s' := (SqliteCache.fires initSqliteCache es s).2 in
  SqliteCache.isClosed s' = false ∧ isOpen (SqliteCache.db s') = true ∧
  table (SqliteCache.db s') ⊆ table (SqliteCache.db s).
Proof.
  revert s. induction es as [| e es IH]; intros s Hc Ho; [done |].
  cbn. destruct (fire_open s e Hc Ho) as (Hc1 & Ho1 & Hsub1).
  destruct (SqliteCache.fire initSqliteCache e s) as [r s1]. cbn in *.
  destruct (IH s1 Hc1 Ho1) as (Hc2 & Ho2 & Hsub2).
  destruct (SqliteCache.fires initSqliteCache es s1) as [rs s2]. cbn in *.
  split; [done |]. split; [done |]. by etrans.
Qed.

(** A row written by [set] decodes to the value that was set, provided the
    libraries invert their own output on it. *)
Lemma decoded_stored_form (v : Value) flag e now :
  cbor_decode (cbor_encode v) = inr v →
  decompress (compress (cbor_encode v)) = inr (cbor_encode v) →
  let form := stored_form flag (cbor_encode v) in
  decoded {| value := form.1; expires := e; lastAccess := now; compressed := form.2 |}
  = inr v.
Proof.
  intros Hcbor Hzlib. unfold stored_form, decoded. cbn.
  destruct (negb flag || _); cbn; [by rewrite Hcbor |].
  case_bool_decide; cbn; [by rewrite Hcbor |].
  by rewrite Hzlib, Hcbor.
Qed.

(** C9. Round trip.  On an open cache, [set(key, v)] followed by any
    background activity (timer ticks, queued sweeps) and then [get(key)]
    returns [v], for every value [v] that [cbor] decodes back from its
    encoding and whose encoding [zlib] gunzips back from its gzip (the
    supported shapes), as long as the entry is still in the table (not
    evicted) and the [get] comes before its expiry.  Nothing is assumed on
    the compression options or the size of the value, so this holds whether
    or not the stored bytes were compressed. *)
Theorem get_after_set_returns_the_value s key (v : Value) opts date_now now es now' :
  SqliteCache.isClosed s = false →
  isOpen (SqliteCache.db s) = true →
  cbor_decode (cbor_encode v) = inr v →
  decompress (compress (cbor_encode v)) = inr (cbor_encode v) →
  let s1 := (SqliteCache.set initSqliteCache key v opts date_now now s).2 in
  let s2 := (SqliteCache.fires initSqliteCache es s1).2 in
  is_Some (table (SqliteCache.db s2) !! key) →
  (∀ ttl, Opts.ttlMs opts = Some ttl → (now' < date_now + ttl)%Z) →
  (SqliteCache.get initSqliteCache key now' s2).1 = inr v.
Proof.
  intros Hc Ho Hcbor Hzlib s1 s2 [r Hr] Hlive.
  assert (SqliteCache.isClosed s1 = false ∧ isOpen (SqliteCache.db s1) = true
          ∧ ∃ form e,
              form = stored_form (effective_compression (SqliteCache.configuration s) opts)
                       (cbor_encode v)
              ∧ e = stored_expires opts date_now
              ∧ table (SqliteCache.db s1) !! key
                = Some {| value := form.1; expires := e; lastAccess := now;
                          compressed := form.2 |}) as (Hc1 & Ho1 & form & e & Hform & He & Hrow).
  { subst s1. rewrite (set_open s key v opts date_now now Hc Ho). cbn.
    repeat split; try done. do 2 eexists. repeat split.
    apply lookup_insert_eq. }
  destruct (fires_open s1 es Hc1 Ho1) as (Hc2 & Ho2 & Hsub). fold s2 in Hc2, Ho2, Hsub.
  pose proof (lookup_weaken _ _ _ _ Hr Hsub) as Hr1.
  rewrite Hrow in Hr1. injection Hr1 as <-.
  rewrite (get_open s2 key now' Hc2 Ho2), Hr.
  assert (live now' {| value := form.1; expires := e; lastAccess := now;
                       compressed := form.2 |} = true) as ->.
  { apply live_true. cbn. subst e. unfold stored_expires.
    destruct (Opts.ttlMs opts) as [ttl|]; [| by left].
    destruct (new_Date_getTime (date_now + ttl)) as [e|] eqn:He; [| by left].
    right. exists e. split; [done |].
    apply new_Date_getTime_Some in He as ->. by apply Hlive. }
  cbn. subst form. by apply decoded_stored_form.
Qed.

End RoundTrip.

(** ** Lifecycle: the closed flag, the sweep's error handling, [close] *)

Section Lifecycle.
Context {Value : Type} {codec : Codec Value} (stmts : PreparedStatements).
Implicit Types (s : SqliteCache.t) (key k : string) (now : Z).

(** Every public method checks the closed flag before anything else. *)
Lemma call_closed s (c : SqliteCache.Call) :
  SqliteCache.isClosed s = true →
  SqliteCache.call stmts c s = (inl CacheClosed, s).
Proof.
  intros Hc. destruct c; cbn; run_method; by rewrite Hc.
Qed.

Lemma calls_closed s (cs : list SqliteCache.Call) :
  SqliteCache.isClosed s = true →
  SqliteCache.calls stmts cs s = ((λ _, inl CacheClosed) <$> cs, s).
Proof.
  intros Hc. induction cs as [| c cs IH]; [done |].
  cbn -[SqliteCache.call]. rewrite call_closed by done. by rewrite IH.
Qed.

(** What a completed [close] leaves. *)
Lemma close_inv s s' :
  SqliteCache.close stmts s = (inr (), s') →
  ∃ c, db_close stmts (SqliteCache.db s) = inr c ∧
       s' = SqliteCache.set_isClosed true
              (SqliteCache.set_db c (SqliteCache.set_checkInterval false s)).
Proof.
  run_method. cbn. destruct (db_close stmts (SqliteCache.db s)) as [ex | c]; [done |].
  intros [= <-]. by exists c.
Qed.

(** The sweep of a closed cache returns at once. *)
Lemma sweep_closed s now :
  SqliteCache.isClosed s = true → SqliteCache.sweep stmts now s = (inr (), s).
Proof. intros Hc. run_method. by rewrite Hc. Qed.

(** The sweep never throws and only writes the connection and the console. *)
Lemma sweep_frame s now :
  let out := SqliteCache.sweep stmts now s in
  out.1 = inr ()
  ∧ SqliteCache.configuration out.2 = SqliteCache.configuration s
  ∧ SqliteCache.checkInterval out.2 = SqliteCache.checkInterval s
  ∧ SqliteCache.isClosed out.2 = SqliteCache.isClosed s
  ∧ SqliteCache.debounced out.2 = SqliteCache.debounced s
  ∧ SqliteCache.immediates out.2 = SqliteCache.immediates s.
Proof.
  run_method. cbn. destruct (SqliteCache.isClosed s) eqn:Hc; [done |].
  destruct (cleanupExpiredStatement stmts now (SqliteCache.db s)) as [ex | c1]; [done |].
  cbn. destruct (Configuration.maxItems (SqliteCache.configuration s)) as [n|]; [| done].
  destruct (truthy n); [| done]. cbn.
  by destruct (cleanupLruStatement stmts n c1).
Qed.

Lemma checkForExpiredItems_frame s now :
  let out := SqliteCache.checkForExpiredItems stmts now s in
  out.1 = inr ()
  ∧ SqliteCache.checkInterval out.2 = SqliteCache.checkInterval s
  ∧ SqliteCache.isClosed out.2 = SqliteCache.isClosed s.
Proof.
  unfold SqliteCache.checkForExpiredItems, SqliteCache.bind, SqliteCache.gets,
    SqliteCache.modify, SqliteCache.ret.
  cbn -[SqliteCache.sweep].
  destruct (timeoutId (SqliteCache.debounced s)); cbn -[SqliteCache.sweep]; [done |].
  set (s1 := SqliteCache.set_debounced _ s).
  destruct (sweep_frame s1 now) as (Hr & _ & Hi & Hc & _). by rewrite Hr, Hi, Hc.
Qed.

Lemma fire_frame s e :
  let out := SqliteCache.fire stmts e s in
  out.1 = inr ()
  ∧ SqliteCache.checkInterval out.2 = SqliteCache.checkInterval s
  ∧ SqliteCache.isClosed out.2 = SqliteCache.isClosed s.
Proof.
  destruct e as [now | now | now];
    cbn -[SqliteCache.checkForExpiredItems];
    unfold SqliteCache.bind, SqliteCache.gets, SqliteCache.modify, SqliteCache.ret;
    cbn -[SqliteCache.checkForExpiredItems].
  - destruct (SqliteCache.checkInterval s) eqn:Hi; [| done].
    destruct (checkForExpiredItems_frame s now) as (? & ? & ?). by rewrite <- Hi.
  - destruct (SqliteCache.immediates s) as [| n]; [done |].
    apply (checkForExpiredItems_frame (SqliteCache.set_immediates n s)).
  - by destruct (timeoutId (SqliteCache.debounced s)).
Qed.

Lemma fires_frame s es :
  let out := SqliteCache.fires stmts es s in
  Forall (λ r, r = inr ()) out.1
  ∧ SqliteCache.checkInterval out.2 = SqliteCache.checkInterval s
  ∧ SqliteCache.isClosed out.2 = SqliteCache.isClosed s.
Proof.
  revert s. induction es as [| e es IH]; intros s; [by split |].
  cbn -[SqliteCache.fire]. destruct (fire_frame s e) as (Hr & Hi & Hc).
  destruct (SqliteCache.fire stmts e s) as [r s1]. cbn in Hr, Hi, Hc.
  destruct (IH s1) as (Hrs & Hi' & Hc').
  destruct (SqliteCache.fires stmts es s1) as [rs s2]. cbn in *.
  split; [by constructor |]. split; congruence.
Qed.

(** C6. Once [close()] has completed, each of [get], [set], [delete] and
    [clear] raises the closed-cache error and leaves the cache object, its
    connection and table included, exactly as it was; the same holds for
    every call of any sequence of calls, also when background events have
    run since [close].  The statements are arbitrary here, so the result
    does not depend on what a storage access would do: none is made. *)
Theorem calls_after_close_raise_without_storage_access s s' :
  SqliteCache.close stmts s = (inr (), s') →
  (∀ key now, SqliteCache.get stmts key now s' = (inl CacheClosed, s'))
  ∧ (∀ key (v : Value) opts date_now now,
       SqliteCache.set stmts key v opts date_now now s' = (inl CacheClosed, s'))
  ∧ (∀ key, SqliteCache.delete stmts key s' = (inl CacheClosed, s'))
  ∧ SqliteCache.clear stmts s' = (inl CacheClosed, s')
  ∧ (∀ es cs,
       let s'' := (SqliteCache.fires stmts es s').2 in
       SqliteCache.calls stmts cs s'' = ((λ _, inl CacheClosed) <$> cs, s'')).
Proof.
  intros Hclose. apply close_inv in Hclose as (c & _ & ->).
  set (s' := SqliteCache.set_isClosed true _).
  split; [| split; [| split; [| split]]]; try (by intros; run_method).
  intros es cs s''. subst s''. apply calls_closed.
  by destruct (fires_frame s' es) as (_ & _ & ->).
Qed.

(** C7. The sweep, for arbitrary storage statements (each may raise).  Its
    promise is always fulfilled, also when fired from the timer or from a
    queued callback, so no error of a sweep reaches a caller.  If the TTL
    statement raises, the error is logged and the connection is as before;
    if the LRU statement raises after the TTL statement ran, the error is
    logged and the connection is as the TTL statement left it.  The sweep
    never disarms the periodic timer, whatever happens in it.  On a closed
    cache the sweep changes nothing. *)
Theorem sweep_failure_is_caught_and_logged s now :
  let out := SqliteCache.sweep stmts now s in
  out.1 = inr ()
  ∧ (∀ ex, SqliteCache.isClosed s = false →
       cleanupExpiredStatement stmts now (SqliteCache.db s) = inl ex →
       out.2 = SqliteCache.console_error ex s)
  ∧ (∀ c1 maxItems ex, SqliteCache.isClosed s = false →
       cleanupExpiredStatement stmts now (SqliteCache.db s) = inr c1 →
       Configuration.maxItems (SqliteCache.configuration s) = Some maxItems →
       truthy maxItems = true →
       cleanupLruStatement stmts maxItems c1 = inl ex →
       out.2 = SqliteCache.console_error ex (SqliteCache.set_db c1 s))
  ∧ SqliteCache.checkInterval out.2 = SqliteCache.checkInterval s
  ∧ (∀ es, let run := SqliteCache.fires stmts es s in
       Forall (λ r, r = inr ()) run.1
       ∧ SqliteCache.checkInterval run.2 = SqliteCache.checkInterval s)
  ∧ (SqliteCache.isClosed s = true → out.2 = s).
Proof.
  intros out. destruct (sweep_frame s now) as (Hr & _ & Hi & _).
  split; [done |]. split; [| split; [| split; [done |]]]; [| | split].
  - intros ex Hc Httl. subst out. run_method. by rewrite Hc, Httl.
  - intros c1 n ex Hc Httl Hmax Htruthy Hlru. subst out. run_method.
    rewrite Hc, Httl. cbn -[truthy]. rewrite Hmax, Htruthy. cbn. by rewrite Hlru.
  - intros es run. destruct (fires_frame s es) as (? & ? & _). done.
  - intros Hc. subst out. by rewrite sweep_closed.
Qed.

(** Background events on a closed cache run no statement. *)
Lemma fire_closed s e :
  SqliteCache.isClosed s = true →
  let out := SqliteCache.fire stmts e s in
  SqliteCache.db out.2 = SqliteCache.db s
  ∧ SqliteCache.console out.2 = SqliteCache.console s
  ∧ SqliteCache.isClosed out.2 = true.
Proof.
  intros Hc.
  assert (∀ s0 now, SqliteCache.isClosed s0 = true →
            let out := SqliteCache.checkForExpiredItems stmts now s0 in
            SqliteCache.db out.2 = SqliteCache.db s0
            ∧ SqliteCache.console out.2 = SqliteCache.console s0
            ∧ SqliteCache.isClosed out.2 = true) as Hcheck.
  { intros s0 now Hc0.
    unfold SqliteCache.checkForExpiredItems, SqliteCache.bind, SqliteCache.gets,
      SqliteCache.modify, SqliteCache.ret.
    cbn -[SqliteCache.sweep].
    destruct (timeoutId (SqliteCache.debounced s0)); cbn -[SqliteCache.sweep]; [done |].
    by rewrite sweep_closed. }
  destruct e as [now | now | now];
    cbn -[SqliteCache.checkForExpiredItems];
    unfold SqliteCache.bind, SqliteCache.gets, SqliteCache.modify, SqliteCache.ret;
    cbn -[SqliteCache.checkForExpiredItems].
  - destruct (SqliteCache.checkInterval s); [by apply Hcheck | done].
  - destruct (SqliteCache.immediates s) as [| n]; [done |].
    by apply (Hcheck (SqliteCache.set_immediates n s)).
  - by destruct (timeoutId (SqliteCache.debounced s)).
Qed.

Lemma fires_closed s es :
  SqliteCache.isClosed s = true →
  let out := SqliteCache.fires stmts es s in
  SqliteCache.db out.2 = SqliteCache.db s
  ∧ SqliteCache.console out.2 = SqliteCache.console s.
Proof.
  revert s. induction es as [| e es IH]; intros s Hc; [done |].
  cbn -[SqliteCache.fire]. destruct (fire_closed s e Hc) as (Hd & Hl & Hc1).
  destruct (SqliteCache.fire stmts e s) as [r s1]. cbn in Hd, Hl, Hc1.
  destruct (IH s1 Hc1) as (Hd' & Hl').
  destruct (SqliteCache.fires stmts es s1) as [rs s2]. cbn in *.
  split; congruence.
Qed.

(** C8, as the code has it.  A completed [close()] has stopped the periodic
    timer, has closed the connection (the connection is what [db.close()]
    returned) and has set the closed flag.  It cancels nothing else: the
    sweep requests queued by [set] and the timer of the debounce wrapper are
    as before.  Whatever runs in the background afterwards (a queued
    request, the wrapper's timer) executes no statement: the connection
    stays as [close] left it and nothing is logged. *)
Theorem close_stops_timer_and_later_sweeps_are_noops s s' :
  SqliteCache.close stmts s = (inr (), s') →
  SqliteCache.checkInterval s' = false
  ∧ db_close stmts (SqliteCache.db s) = inr (SqliteCache.db s')
  ∧ SqliteCache.isClosed s' = true
  ∧ SqliteCache.immediates s' = SqliteCache.immediates s
  ∧ SqliteCache.debounced s' = SqliteCache.debounced s
  ∧ (∀ es, let run := SqliteCache.fires stmts es s' in
       SqliteCache.db run.2 = SqliteCache.db s'
       ∧ SqliteCache.console run.2 = SqliteCache.console s'
       ∧ Forall (λ r, r = inr ()) run.1).
Proof.
  intros Hclose. apply close_inv in Hclose as (c & Hdb & ->).
  set (s' := SqliteCache.set_isClosed true _).
  split; [done |]. split; [done |]. split; [done |]. split; [done |].
  split; [done |]. intros es run.
  destruct (fires_closed s' es eq_refl) as (Hd & Hl).
  destruct (fires_frame s' es) as (Hr & _).
  done.
Qed.

End Lifecycle.

(** ** The properties at concrete inputs *)

(** C3 on the cache holding ["foo"]: a [get] at time 1001 returns the value and sets [lastAccess] to 1001. *)
Lemma get_touches_only_the_live_row_witness :
  SqliteCache.isClosed demo_cache_foo = false
  ∧ isOpen (SqliteCache.db demo_cache_foo) = true
  ∧ (SqliteCache.get initSqliteCache "foo" 1001 demo_cache_foo).1 = inr (JsBool true)
  ∧ lastAccess <$> table (SqliteCache.db
        (SqliteCache.get initSqliteCache "foo" 1001 demo_cache_foo).2) !! "foo"
    = Some 1001%Z.
Proof.
  split; [reflexivity |]. split; [reflexivity |].
  destruct (get_touches_only_the_live_row demo_cache_foo "foo" 1001 eq_refl eq_refl)
    as (Hhit & _).
  destruct (Hhit {| value := [Byte.xf5]; expires := Some 1020%Z; lastAccess := 1000;
                    compressed := 0 |} eq_refl eq_refl) as [Hres Hrow].
  rewrite Hres, Hrow. split; reflexivity.
Defined.

(** C5 on the same cache: the TTL sweep at time 1021 deletes the row that expired at 1020. *)
Lemma ttl_sweep_deletes_exactly_the_expired_witness :
  isOpen (SqliteCache.db demo_cache_foo) = true
  ∧ ∃ c', cleanupExpiredStatement initSqliteCache 1021 (SqliteCache.db demo_cache_foo)
          = inr c'
          ∧ table c' !! "foo" = None.
Proof.
  split; [reflexivity |].
  destruct (ttl_sweep_deletes_exactly_the_expired 1021 (SqliteCache.db demo_cache_foo)
              eq_refl) as (c' & Hrun & _ & Hgone & _).
  exists c'. split; [exact Hrun |].
  apply (Hgone "foo" {| value := [Byte.xf5]; expires := Some 1020%Z; lastAccess := 1000;
                         compressed := 0 |} 1020%Z); [reflexivity | reflexivity | lia].
Defined.

(** C10 on the same cache, at the instant 1020 at which ["foo"] expires. *)
Lemma expiry_instant_is_dead_for_get_and_kept_by_sweep_witness :
  SqliteCache.isClosed demo_cache_foo = false
  ∧ isOpen (SqliteCache.db demo_cache_foo) = true
  ∧ expires <$> table (SqliteCache.db demo_cache_foo) !! "foo" = Some (Some 1020%Z)
  ∧ SqliteCache.get initSqliteCache "foo" 1020 demo_cache_foo
    = (inr JsUndefined, demo_cache_foo).
Proof.
  split; [reflexivity |]. split; [reflexivity |]. split; [reflexivity |].
  exact (proj1 (expiry_instant_is_dead_for_get_and_kept_by_sweep demo_cache_foo "foo"
                  {| value := [Byte.xf5]; expires := Some 1020%Z; lastAccess := 1000;
                     compressed := 0 |} 1020 eq_refl eq_refl eq_refl eq_refl)).
Defined.

(** C1 on a cache configured with [defaultTtlMs = 3600000]: a [set] without options stores a null [expires]. *)
Lemma set_applies_only_the_per_call_ttl_witness :
  SqliteCache.isClosed demo_cache = false
  ∧ isOpen (SqliteCache.db demo_cache) = true
  ∧ Configuration.defaultTtlMs (SqliteCache.configuration demo_cache) = Some 3600000%Z
  ∧ ∃ r, table (SqliteCache.db
           (SqliteCache.set initSqliteCache "foo" JsNull no_opts 1000 1000 demo_cache).2)
         !! "foo" = Some r
         ∧ expires r = None.
Proof.
  split; [reflexivity |]. split; [reflexivity |]. split; [reflexivity |].
  destruct (set_applies_only_the_per_call_ttl demo_cache "foo" JsNull no_opts 1000 1000
              eq_refl eq_refl) as (r & Hrow & Hnone & _).
  exists r. split; [exact Hrow | exact (Hnone eq_refl)].
Defined.

(** C2 with compression on by default: 2000 zero bytes are stored compressed and shorter. *)
Lemma set_compression_decision_witness :
  SqliteCache.isClosed demo_cache = false
  ∧ isOpen (SqliteCache.db demo_cache) = true
  ∧ ∃ r, table (SqliteCache.db
           (SqliteCache.set initSqliteCache "buf" (zeros 2000) no_opts 1000 1000 demo_cache).2)
         !! "buf" = Some r
         ∧ compressed r = 1%Z
         ∧ length (value r) ≤ length (cbor_encode (zeros 2000)).
Proof.
  split; [reflexivity |]. split; [reflexivity |].
  destruct (set_compression_decision demo_cache "buf" (zeros 2000) no_opts 1000 1000
              eq_refl eq_refl) as (r & Hrow & _ & _ & Hsmaller & Hlen).
  exists r. split; [exact Hrow |]. split; [| exact Hlen].
  apply Hsmaller; [reflexivity | |]; apply Nat.leb_le; vm_compute; reflexivity.
Defined.


(** C9 for a compressed buffer, with the sweep queued by [set] run in between. *)
Lemma get_after_set_returns_the_value_witness :
  SqliteCache.isClosed demo_cache = false
  ∧ isOpen (SqliteCache.db demo_cache) = true
  ∧ (let s1 := (SqliteCache.set initSqliteCache "buf" (zeros 2000) (ttl_opts 50)
                  1000 1000 demo_cache).2 in
     let s2 := (SqliteCache.fires initSqliteCache [SqliteCache.ImmediateRuns 1001] s1).2 in
     (SqliteCache.get initSqliteCache "buf" 1002 s2).1 = inr (zeros 2000)).
Proof.
  split; [reflexivity |]. split; [reflexivity |].
  apply (get_after_set_returns_the_value demo_cache "buf" (zeros 2000) (ttl_opts 50)
           1000 1000 [SqliteCache.ImmediateRuns 1001] 1002).
  - reflexivity.
  - reflexivity.
  - vm_compute. reflexivity.
  - vm_compute. reflexivity.
  - eexists. vm_compute. reflexivity.
  - intros ttl [= <-]. lia.
Defined.

(** C6 on the closed cache. *)
Lemma calls_after_close_raise_without_storage_access_witness :
  SqliteCache.close initSqliteCache demo_cache_foo = (inr (), demo_cache_closed)
  ∧ SqliteCache.get initSqliteCache "foo" 1001 demo_cache_closed
    = (inl CacheClosed, demo_cache_closed)
  ∧ SqliteCache.clear initSqliteCache demo_cache_closed
    = (inl CacheClosed, demo_cache_closed).
Proof.
  split; [reflexivity |].
  destruct (calls_after_close_raise_without_storage_access (Value := JsValue)
              initSqliteCache demo_cache_foo demo_cache_closed eq_refl)
    as (Hget & _ & _ & Hclear & _).
  split; [exact (Hget "foo" 1001%Z) | exact Hclear].
Defined.

(** C8 (amended) on the closed cache: the queued sweep and a late timer tick leave the connection alone. *)
Lemma close_stops_timer_and_later_sweeps_are_noops_witness :
  SqliteCache.close initSqliteCache demo_cache_foo = (inr (), demo_cache_closed)
  ∧ SqliteCache.checkInterval demo_cache_closed = false
  ∧ isOpen (SqliteCache.db demo_cache_closed) = false
  ∧ SqliteCache.db (SqliteCache.fires initSqliteCache
                      [SqliteCache.ImmediateRuns 1030; SqliteCache.IntervalFires 2000]
                      demo_cache_closed).2
    = SqliteCache.db demo_cache_closed.
Proof.
  split; [reflexivity |].
  destruct (close_stops_timer_and_later_sweeps_are_noops
              initSqliteCache demo_cache_foo demo_cache_closed eq_refl)
    as (Htimer & _ & _ & _ & _ & Hlater).
  split; [exact Htimer |]. split; [reflexivity |].
  exact (proj1 (Hlater [SqliteCache.ImmediateRuns 1030; SqliteCache.IntervalFires 2000])).
Defined.

(** C8 as stated fails: [close] does not cancel a pending sweep.  A [set]
    queues one sweep request; [close] completes and the request is still
    queued; when the event loop runs it after [close], the debounced
    function is called (its timer gets armed).  Only the closed flag keeps
    that call from touching the table. *)
Lemma close_leaves_the_queued_sweep :
  SqliteCache.close initSqliteCache demo_cache_foo = (inr (), demo_cache_closed)
  ∧ SqliteCache.immediates demo_cache_foo = 1
  ∧ ¬ no_pending_sweep demo_cache_closed
  ∧ timeoutId (SqliteCache.debounced
                 (SqliteCache.fire initSqliteCache
                    (SqliteCache.ImmediateRuns 1030) demo_cache_closed).2) = true.
Proof.
  split; [reflexivity |]. split; [reflexivity |]. split; [| reflexivity].
  intros [Hqueue _]. vm_compute in Hqueue. discriminate.
Qed.

(** ** The repository's tests on the model *)

(** The constructor validates the configuration and starts open, with the
    interval timer armed. *)
Example test_new :
  SqliteCache.new demo_configuration ∅ = inr demo_cache.
Proof. reflexivity. Qed.

Example test_new_rejects_maxItems_zero :
  SqliteCache.new
    {| Configuration.database := ":memory:"; Configuration.defaultTtlMs := None;
       Configuration.maxItems := Some 0%Z; Configuration.compress := None;
       Configuration.cacheTableName := None |} ∅
  = inl ZodError.
Proof. reflexivity. Qed.

(** "ttl": after 30 ms the key with [ttlMs = 20] is gone for [get], the key
    without a TTL is still there. *)
Example test_ttl :
  let s1 := (SqliteCache.set initSqliteCache "foo" (JsBool true) no_opts 0 0 demo_cache).2 in
  let s2 := (SqliteCache.set initSqliteCache "expires" (JsBool true) (ttl_opts 20) 1 1 s1).2 in
  (SqliteCache.get initSqliteCache "foo" 31 s2).1 = inr (JsBool true)
  ∧ (SqliteCache.get initSqliteCache "expires" 31 s2).1 = inr JsUndefined.
Proof. split; reflexivity. Qed.

(** "lru": with [maxItems = 2] the sweep keeps the two rows accessed last. *)
Example test_lru :
  let s := (SqliteCache.sweep initSqliteCache 1003 demo_cache_three).2 in
  dom (table (SqliteCache.db s)) = {["b"; "c"]}.
Proof. vm_compute. reflexivity. Qed.

(** "compression too short": 200 zero bytes are stored as they are. *)
Example test_compression_too_short :
  let s := (SqliteCache.set initSqliteCache "buf" (zeros 200) no_opts 0 0 demo_cache).2 in
  compressed <$> table (SqliteCache.db s) !! "buf" = Some 0%Z.
Proof. vm_compute. reflexivity. Qed.

(** A sweep whose LRU statement fails: the expired row is deleted, the
    error is logged, the promise is fulfilled and the timer stays armed. *)
Example test_sweep_with_failing_lru :
  let out := SqliteCache.sweep failing_lru 1021 demo_cache_foo in
  out.1 = inr ()
  ∧ table (SqliteCache.db out.2) = ∅
  ∧ SqliteCache.console out.2 = [SqliteError "disk I/O error"]
  ∧ SqliteCache.checkInterval out.2 = true.
Proof. vm_compute. repeat split; reflexivity. Qed.

(** * Further properties of the code *)

(** ** [escapeIdentifier] *)

Lemma append_nil (x : string) : EmptyString +:+ x = x.
Proof. reflexivity. Qed.

Lemma append_cons c (a x : string) : String c a +:+ x = String c (a +:+ x).
Proof. reflexivity. Qed.

Lemma read_double_quotes name rest :
  starts_with_dquote rest = false →
  read_quoted_body (double_quotes name +:+ String dquote rest) = Some (name, rest).
Proof.
  intros Hrest. induction name as [| c name IH]; cbn [double_quotes].
  - rewrite append_nil. cbn [read_quoted_body]. rewrite Ascii.eqb_refl.
    destruct rest as [| c' rest']; [done |].
    cbn [starts_with_dquote] in Hrest. by rewrite Hrest.
  - destruct (Ascii.eqb c dquote) eqn:Hc; rewrite !append_cons;
      cbn [read_quoted_body].
    + apply Ascii.eqb_eq in Hc as ->. by rewrite !Ascii.eqb_refl, IH.
    + by rewrite Hc, IH.
Qed.

Lemma append_assoc_dquote (a rest : string) :
  (a +:+ String dquote EmptyString) +:+ rest = a +:+ String dquote rest.
Proof.
  induction a as [| c a IH]; [done |].
  by rewrite !append_cons, IH.
Qed.

(** X1. A table name quoted by [escapeIdentifier] and spliced into a
    statement is read back by SQL as exactly that name, whatever characters
    it holds (quotes included), and the statement text that follows it is
    left as it is: the name cannot end the identifier early.  The text after
    the identifier must not itself start with a quote. *)
Theorem escapeIdentifier_reads_back_as_the_name name rest :
  starts_with_dquote rest = false →
  read_quoted_identifier (escapeIdentifier name +:+ rest) = Some (name, rest).
Proof.
  intros Hrest. unfold escapeIdentifier. rewrite append_cons.
  cbn [read_quoted_identifier]. rewrite Ascii.eqb_refl, append_assoc_dquote.
  by apply read_double_quotes.
Qed.

(** X1 on the table name of the repository's test, inside the text of the
    [clearStatement]. *)
Lemma escapeIdentifier_reads_back_as_the_name_witness :
  starts_with_dquote " WHERE key = @key" = false
  ∧ read_quoted_identifier (escapeIdentifier table_with_quotes +:+ " WHERE key = @key")
    = Some (table_with_quotes, " WHERE key = @key").
Proof.
  split; [reflexivity |].
  exact (escapeIdentifier_reads_back_as_the_name table_with_quotes " WHERE key = @key"
           eq_refl).
Defined.

(** X2. [escapeIdentifier] is injective: two table names are quoted to the
    same identifier only if they are the same name. *)
Theorem escapeIdentifier_injective a b :
  escapeIdentifier a = escapeIdentifier b ↔ a = b.
Proof.
  split; [| by intros ->].
  unfold escapeIdentifier. intros [= Heq].
  pose proof (read_double_quotes a EmptyString eq_refl) as Ha.
  pose proof (read_double_quotes b EmptyString eq_refl) as Hb.
  rewrite Heq in Ha. congruence.
Qed.

(** ** [delete], [clear] and [set] on an open cache *)

Section Foreground.
Context {Value : Type} {codec : Codec Value}.
Implicit Types (s : SqliteCache.t) (key k : string) (now : Z) (r : Row).

Lemma delete_open s key :
  SqliteCache.isClosed s = false → isOpen (SqliteCache.db s) = true →
  SqliteCache.delete initSqliteCache key s =
    (inr (), SqliteCache.set_db
               (with_table (base.delete key (table (SqliteCache.db s))) (SqliteCache.db s)) s).
Proof.
  intros Hc Ho. run_method. rewrite Hc. cbn [deleteStatement initSqliteCache].
  by rewrite run_open.
Qed.

Lemma clear_open s :
  SqliteCache.isClosed s = false → isOpen (SqliteCache.db s) = true →
  SqliteCache.clear initSqliteCache s =
    (inr (), SqliteCache.set_db (with_table ∅ (SqliteCache.db s)) s).
Proof.
  intros Hc Ho. run_method. rewrite Hc. cbn [clearStatement initSqliteCache].
  by rewrite run_open.
Qed.

(** X3. [delete(key)] on an open cache never raises, whether or not the
    key is there; it removes the row of [key] and leaves every other row as
    it was; it requests no sweep; and a [get(key)] at any later time returns
    [undefined] without changing anything. *)
Theorem delete_removes_only_the_key s key :
  SqliteCache.isClosed s = false →
  isOpen (SqliteCache.db s) = true →
  let out := SqliteCache.delete initSqliteCache key s in
  out.1 = inr ()
  ∧ table (SqliteCache.db out.2) !! key = None
  ∧ (∀ k, k ≠ key → table (SqliteCache.db out.2) !! k = table (SqliteCache.db s) !! k)
  ∧ SqliteCache.immediates out.2 = SqliteCache.immediates s
  ∧ (∀ now, SqliteCache.get initSqliteCache key now out.2 = (inr undefined, out.2)).
Proof.
  intros Hc Ho out. subst out. rewrite (delete_open s key Hc Ho).
  cbn -[SqliteCache.get].
  split; [done |]. split; [apply lookup_delete_eq |].
  split; [by intros k Hk; apply lookup_delete_ne |]. split; [done |].
  intros now. rewrite get_open by done. cbn. by rewrite lookup_delete_eq.
Qed.

(** X4. [clear()] on an open cache never raises and leaves the table empty:
    afterwards [get] returns [undefined] for every key, at any time, without
    changing anything. *)
Theorem clear_empties_the_table s :
  SqliteCache.isClosed s = false →
  isOpen (SqliteCache.db s) = true →
  let out := SqliteCache.clear initSqliteCache s in
  out.1 = inr ()
  ∧ table (SqliteCache.db out.2) = ∅
  ∧ (∀ key now, SqliteCache.get initSqliteCache key now out.2 = (inr undefined, out.2)).
Proof.
  intros Hc Ho out. subst out. rewrite (clear_open s Hc Ho).
  cbn -[SqliteCache.get].
  split; [done |]. split; [done |].
  intros key now. rewrite get_open by done. cbn. by rewrite lookup_empty.
Qed.

(** X5. [set(key, ...)] on an open cache never raises; it leaves every
    other row as it was, stamps the new row with the [now()] of the call,
    and queues exactly one sweep request.  The row it writes replaces any
    earlier row of [key] as a whole: the result is the same as after
    [delete(key)] followed by the same [set].  The table grows by one row
    if the key was new and keeps its size otherwise. *)
Theorem set_replaces_the_whole_row s key (v : Value) opts date_now now :
  SqliteCache.isClosed s = false →
  isOpen (SqliteCache.db s) = true →
  let out := SqliteCache.set initSqliteCache key v opts date_now now s in
  let t := table (SqliteCache.db s) in
  let t' := table (SqliteCache.db out.2) in
  out.1 = inr ()
  ∧ (∀ k, k ≠ key → t' !! k = t !! k)
  ∧ lastAccess <$> t' !! key = Some now
  ∧ SqliteCache.immediates out.2 = S (SqliteCache.immediates s)
  ∧ t' = table (SqliteCache.db
                  (SqliteCache.set initSqliteCache key v opts date_now now
                     (SqliteCache.delete initSqliteCache key s).2).2)
  ∧ size t' = (if decide (is_Some (t !! key)) then size t else S (size t)).
Proof.
  intros Hc Ho out t t'. subst out t'.
  rewrite (set_open s key v opts date_now now Hc Ho).
  rewrite (delete_open s key Hc Ho).
  rewrite set_open by done. cbn. fold t.
  split; [done |]. split; [by intros k Hk; apply lookup_insert_ne |].
  split; [by rewrite lookup_insert_eq |]. split; [done |].
  split; [by rewrite insert_delete_eq |].
  case_decide as Hin.
  - destruct Hin as [r Hr]. by apply map_size_insert_Some.
  - apply map_size_insert_None. by apply eq_None_not_Some.
Qed.

(** X6. Reading does not change what is read: after a [get(key)] that
    found a live row, a second [get(key)] at a time at which the row is
    still live returns the same outcome, and the row then differs from the
    original one only in its [lastAccess]. *)
Theorem get_twice_returns_the_same s key r now now' :
  SqliteCache.isClosed s = false →
  isOpen (SqliteCache.db s) = true →
  table (SqliteCache.db s) !! key = Some r →
  live now r = true →
  live now' r = true →
  let first := SqliteCache.get initSqliteCache key now s in
  let second := SqliteCache.get initSqliteCache key now' first.2 in
  second.1 = first.1
  ∧ first.1 = decoded r
  ∧ table (SqliteCache.db second.2) !! key = Some (touch now' r).
Proof.
  intros Hc Ho Hr Hl Hl' first second. subst second first.
  rewrite (get_open s key now Hc Ho), Hr, Hl. cbn -[SqliteCache.get].
  rewrite get_open by done. cbn. rewrite lookup_insert_eq.
  assert (live now' (touch now r) = true) as -> by done.
  cbn. rewrite lookup_insert_eq. split; [| done].
  unfold decoded. done.
Qed.

End Foreground.

(** ** Storage errors in the public methods and in [close] *)

Section StorageErrors.
Context {Value : Type} {codec : Codec Value} (stmts : PreparedStatements).
Implicit Types (s : SqliteCache.t) (key k : string) (now : Z).

(** X7. An error raised by the storage inside [get], [set], [delete] or
    [clear] reaches the caller as it is, and the cache object is left as it
    was; in particular a [set] that failed queues no sweep request. *)
Theorem storage_error_reaches_the_caller s ex :
  SqliteCache.isClosed s = false →
  (∀ key now, getStatement stmts key now (SqliteCache.db s) = inl ex →
     SqliteCache.get stmts key now s = (inl ex, s))
  ∧ (∀ key (v : Value) opts date_now now,
       (∀ bytes e c, setStatement stmts key bytes e now c (SqliteCache.db s) = inl ex) →
       SqliteCache.set stmts key v opts date_now now s = (inl ex, s))
  ∧ (∀ key, deleteStatement stmts key (SqliteCache.db s) = inl ex →
       SqliteCache.delete stmts key s = (inl ex, s))
  ∧ (clearStatement stmts (SqliteCache.db s) = inl ex →
       SqliteCache.clear stmts s = (inl ex, s)).
Proof.
  intros Hc. split; [| split; [| split]].
  - intros key now Hex. run_method. by rewrite Hc, Hex.
  - intros key v opts date_now now Hex. run_method. rewrite Hc.
    destruct (_ && _); [destruct (bool_decide _) |]; by rewrite Hex.
  - intros key Hex. run_method. by rewrite Hc, Hex.
  - intros Hex. run_method. by rewrite Hc, Hex.
Qed.

(** X8. If [db.close()] raises, [close()] rejects with that error after it
    has stopped the interval timer and before it sets the closed flag: the
    cache is left with its flag and connection as before, and without its
    periodic sweep. *)
Theorem failed_close_stops_the_timer_only s ex :
  db_close stmts (SqliteCache.db s) = inl ex →
  SqliteCache.close stmts s = (inl ex, SqliteCache.set_checkInterval false s).
Proof. intros Hex. run_method. cbn. by rewrite Hex. Qed.

End StorageErrors.

(** X9. [close()] may be called again: on a cache that [close()] has
    closed, a second [close()] succeeds and changes nothing. *)
Theorem close_twice_is_close_once (s : SqliteCache.t) :
  let closed := (SqliteCache.close initSqliteCache s).2 in
  (SqliteCache.close initSqliteCache s).1 = inr ()
  ∧ SqliteCache.close initSqliteCache closed = (inr (), closed).
Proof. by destruct s as [? [? ?] ? ? ? ? ?]. Qed.

(** ** The sweep on the table *)

Section SweepTable.
Implicit Types (t : gmap string Row) (r : Row) (key k : string) (now : Z).





(** The row accessed strictly last is kept by the LRU statement as soon as
    the bound is at least one. *)
Lemma sql_cleanupLru_keeps_newest maxItems t k r :
  (0 < maxItems)%Z →
  t !! k = Some r →
  (∀ k' r', k' ≠ k → t !! k' = Some r' → (lastAccess r' < lastAccess r)%Z) →
  sql_cleanupLru maxItems t !! k = Some r.
Proof.
  intros Hpos Hr Hnewest.
  destruct (sql_cleanupLru maxItems t !! k) as [r1|] eqn:Hk.
  { pose proof (lookup_weaken _ _ _ _ Hk (sql_cleanupLru_subseteq maxItems t)). congruence. }
  exfalso.
  assert (size (sql_cleanupLru maxItems t) ≠ 0) as Hne.
  { rewrite sql_cleanupLru_size.
    assert (size t ≠ 0) by (apply map_size_ne_0_lookup; eauto). lia. }
  apply map_size_ne_0_lookup in Hne as (k0 & r0 & Hk0).
  assert (k0 ≠ k) as Hdiff by (intros ->; congruence).
  pose proof (sql_cleanupLru_oldest maxItems t k0 r0 k r Hk0 Hr Hk) as Hold.
  pose proof (lookup_weaken _ _ _ _ Hk0 (sql_cleanupLru_subseteq maxItems t)) as Hk0t.
  pose proof (Hnewest k0 r0 Hdiff Hk0t). lia.
Qed.

End SweepTable.

(** ** The sweep cycle *)

Section SweepCycle.
Context {Value : Type} {codec : Codec Value}.
Implicit Types (s : SqliteCache.t) (key k : string) (now : Z) (r : Row).

(** The table after one sweep of [initSqliteCache], in every state. *)
Lemma sweep_table_subseteq s now :
  table (SqliteCache.db (SqliteCache.sweep initSqliteCache now s).2)
  ⊆ table (SqliteCache.db s).
Proof.
  destruct (SqliteCache.isClosed s) eqn:Hc; [by rewrite sweep_closed |].
  destruct (isOpen (SqliteCache.db s)) eqn:Ho.
  - rewrite sweep_open by done. cbn.
    destruct (Configuration.maxItems _) as [n|]; [| apply sql_cleanupExpired_subseteq].
    destruct (truthy n); [| apply sql_cleanupExpired_subseteq].
    etrans; [apply sql_cleanupLru_subseteq | apply sql_cleanupExpired_subseteq].
  - run_method. rewrite Hc. cbn [cleanupExpiredStatement initSqliteCache].
    unfold run. by rewrite Ho.
Qed.

Lemma fire_table_subseteq s e :
  table (SqliteCache.db (SqliteCache.fire initSqliteCache e s).2)
  ⊆ table (SqliteCache.db s).
Proof.
  assert (∀ s0 now,
            table (SqliteCache.db (SqliteCache.checkForExpiredItems initSqliteCache now s0).2)
            ⊆ table (SqliteCache.db s0)) as Hcheck.
  { intros s0 now.
    unfold SqliteCache.checkForExpiredItems, SqliteCache.bind, SqliteCache.gets,
      SqliteCache.modify, SqliteCache.ret.
    cbn -[SqliteCache.sweep].
    destruct (timeoutId (SqliteCache.debounced s0)); cbn -[SqliteCache.sweep]; [done |].
    apply (sweep_table_subseteq (SqliteCache.set_debounced _ s0)). }
  destruct e as [now | now | now];
    cbn -[SqliteCache.checkForExpiredItems];
    unfold SqliteCache.bind, SqliteCache.gets, SqliteCache.modify, SqliteCache.ret;
    cbn -[SqliteCache.checkForExpiredItems].
  - destruct (SqliteCache.checkInterval s); [apply Hcheck | done].
  - destruct (SqliteCache.immediates s) as [| n]; [done |].
    apply (Hcheck (SqliteCache.set_immediates n s)).
  - by destruct (timeoutId (SqliteCache.debounced s)).
Qed.

(** X10. Background work only deletes.  Whatever the state of the cache and
    whatever sequence of timer ticks, queued sweeps and debounce timers
    runs, every row of the table afterwards is a row of the table before,
    unchanged: a sweep never adds a row and never modifies one. *)
Theorem background_work_only_deletes_rows s (es : list SqliteCache.Event) :
  table (SqliteCache.db (SqliteCache.fires initSqliteCache es s).2)
  ⊆ table (SqliteCache.db s).
Proof.
  revert s. induction es as [| e es IH]; intros s; [done |].
  cbn -[SqliteCache.fire]. pose proof (fire_table_subseteq s e) as Hsub.
  destruct (SqliteCache.fire initSqliteCache e s) as [r s1]. cbn in Hsub.
  pose proof (IH s1) as Hsub'.
  destruct (SqliteCache.fires initSqliteCache es s1) as [rs s2]. cbn in *.
  by etrans.
Qed.



(** The table after a sweep cycle on a validated configuration keeps the
    row accessed strictly last, if it is not expired. *)
Lemma sweep_keeps_newest s now cfg' k r :
  SqliteCache.isClosed s = false →
  isOpen (SqliteCache.db s) = true →
  configurationSchema_parse (SqliteCache.configuration s) = inr cfg' →
  table (SqliteCache.db s) !! k = Some r →
  expired now r = false →
  (∀ k' r', k' ≠ k → table (SqliteCache.db s) !! k' = Some r' →
     (lastAccess r' < lastAccess r)%Z) →
  table (SqliteCache.db (SqliteCache.sweep initSqliteCache now s).2) !! k = Some r.
Proof.
  intros Hc Ho Hparse Hr Hlive Hnewest. rewrite sweep_open by done. cbn.
  assert (sql_cleanupExpired now (table (SqliteCache.db s)) !! k = Some r) as Hr1
    by by apply sql_cleanupExpired_lookup.
  destruct (Configuration.maxItems _) as [n|] eqn:Hmax; [| done].
  destruct (truthy n); [| done].
  apply sql_cleanupLru_keeps_newest; [by eapply parse_maxItems_positive | done |].
  intros k' r' Hk' Hr'. apply sql_cleanupExpired_lookup in Hr' as [Hr' _]. eauto.
Qed.

(** X13. Least recently used means least recently read.  On an open cache
    with a validated configuration, a [get(key)] that finds a live row at a
    time later than the [lastAccess] of every other row protects that row:
    the next sweep, at any time at which the row is not expired, keeps it,
    whatever the capacity bound. *)
Theorem a_row_just_read_survives_the_sweep s key r now now' cfg' :
  SqliteCache.isClosed s = false →
  isOpen (SqliteCache.db s) = true →
  configurationSchema_parse (SqliteCache.configuration s) = inr cfg' →
  table (SqliteCache.db s) !! key = Some r →
  live now r = true →
  (∀ k' r', table (SqliteCache.db s) !! k' = Some r' → k' ≠ key →
     (lastAccess r' < now)%Z) →
  expired now' r = false →
  let read := (SqliteCache.get initSqliteCache key now s).2 in
  table (SqliteCache.db (SqliteCache.sweep initSqliteCache now' read).2) !! key
  = Some (touch now r).
Proof.
  intros Hc Ho Hparse Hr Hl Hnewest Hnot read. subst read.
  rewrite (get_open s key now Hc Ho), Hr, Hl. cbn -[SqliteCache.sweep].
  eapply sweep_keeps_newest; try done.
  - cbn. apply lookup_insert_eq.
  - cbn. intros k' r' Hk' Hr'. rewrite lookup_insert_ne in Hr' by done. eauto.
Qed.

(** X14. A row just written survives the next sweep.  On an open cache
    with a validated configuration, after a [set(key, ...)] whose [now()]
    is later than the [lastAccess] of every other row, the next sweep, at
    any time up to the expiry of the new row, keeps the row of [key],
    whatever the capacity bound. *)
Theorem a_row_just_written_survives_the_sweep s key (v : Value) opts date_now now now' cfg' :
  SqliteCache.isClosed s = false →
  isOpen (SqliteCache.db s) = true →
  configurationSchema_parse (SqliteCache.configuration s) = inr cfg' →
  (∀ k' r', table (SqliteCache.db s) !! k' = Some r' → k' ≠ key →
     (lastAccess r' < now)%Z) →
  (∀ ttl, Opts.ttlMs opts = Some ttl → (now' ≤ date_now + ttl)%Z) →
  let written := (SqliteCache.set initSqliteCache key v opts date_now now s).2 in
  table (SqliteCache.db (SqliteCache.sweep initSqliteCache now' written).2) !! key
  = table (SqliteCache.db written) !! key
  ∧ is_Some (table (SqliteCache.db written) !! key).
Proof.
  intros Hc Ho Hparse Hnewest Httl written. subst written.
  rewrite (set_open s key v opts date_now now Hc Ho). cbn -[SqliteCache.sweep].
  rewrite lookup_insert_eq. split; [| eauto].
  eapply sweep_keeps_newest; try done.
  - cbn. apply lookup_insert_eq.
  - apply expired_false. cbn. unfold stored_expires.
    destruct (Opts.ttlMs opts) as [ttl|]; [| by left].
    destruct (new_Date_getTime (date_now + ttl)) as [e|] eqn:He; [| by left].
    right. exists e. split; [done |].
    apply new_Date_getTime_Some in He as ->. by apply Httl.
  - cbn. intros k' r' Hk' Hr'. rewrite lookup_insert_ne in Hr' by done. eauto.
Qed.

(** X15. Without a capacity bound the sweep is invisible to readers: on an
    open cache with no [maxItems], a [get] at time [now'] returns the same
    outcome whether or not a sweep ran before it at a time [now ≤ now'].
    The sweep only deletes rows that [get] would already treat as absent. *)
Theorem ttl_sweep_is_invisible_to_get s key now now' :
  SqliteCache.isClosed s = false →
  isOpen (SqliteCache.db s) = true →
  Configuration.maxItems (SqliteCache.configuration s) = None →
  (now ≤ now')%Z →
  let swept := (SqliteCache.sweep initSqliteCache now s).2 in
  (SqliteCache.get initSqliteCache key now' swept).1
  = (SqliteCache.get initSqliteCache key now' s).1.
Proof.
  intros Hc Ho Hmax Hle swept. subst swept.
  rewrite (sweep_open s now Hc Ho). cbn -[SqliteCache.get]. rewrite Hmax.
  rewrite !get_open by done. cbn.
  destruct (table (SqliteCache.db s) !! key) as [r|] eqn:Hr.
  - destruct (expired now r) eqn:Hx.
    + assert (sql_cleanupExpired now (table (SqliteCache.db s)) !! key = None) as ->.
      { apply eq_None_not_Some. intros [r' Hr'].
        apply sql_cleanupExpired_lookup in Hr' as [Hr' Hx']. congruence. }
      assert (live now' r = false) as ->; [| done].
      apply expired_true in Hx as (e & He & Hlt).
      unfold live. rewrite He. apply Z.ltb_ge. lia.
    + assert (sql_cleanupExpired now (table (SqliteCache.db s)) !! key = Some r) as ->
        by by apply sql_cleanupExpired_lookup.
      by destruct (live now' r).
  - assert (sql_cleanupExpired now (table (SqliteCache.db s)) !! key = None) as ->; [| done].
    apply eq_None_not_Some. intros [r' Hr'].
    apply sql_cleanupExpired_lookup in Hr' as [Hr' _]. congruence.
Qed.

End SweepCycle.

(** ** The debounced wrapper *)

Section Debounce.
Context (stmts : PreparedStatements).
Implicit Types (s : SqliteCache.t) (now : Z).

Lemma checkForExpiredItems_pending s now :
  timeoutId (SqliteCache.debounced s) = true →
  SqliteCache.checkForExpiredItems stmts now s
  = (inr (), SqliteCache.set_debounced {| timeoutId := true; timestamp := now |} s).
Proof.
  intros Hp. unfold SqliteCache.checkForExpiredItems, SqliteCache.bind,
    SqliteCache.gets, SqliteCache.modify, SqliteCache.ret.
  cbn -[SqliteCache.sweep]. by rewrite Hp.
Qed.

Lemma checkForExpiredItems_armed s now :
  timeoutId (SqliteCache.debounced (SqliteCache.checkForExpiredItems stmts now s).2) = true.
Proof.
  unfold SqliteCache.checkForExpiredItems, SqliteCache.bind,
    SqliteCache.gets, SqliteCache.modify, SqliteCache.ret.
  cbn -[SqliteCache.sweep].
  destruct (timeoutId (SqliteCache.debounced s)); cbn -[SqliteCache.sweep]; [done |].
  set (s1 := SqliteCache.set_debounced _ s).
  destruct (sweep_frame stmts s1 now) as (_ & _ & _ & _ & Hd & _). by rewrite Hd.
Qed.

Lemma request_while_pending s e :
  timeoutId (SqliteCache.debounced s) = true →
  is_request e = true →
  let out := SqliteCache.fire stmts e s in
  SqliteCache.db out.2 = SqliteCache.db s
  ∧ SqliteCache.console out.2 = SqliteCache.console s
  ∧ timeoutId (SqliteCache.debounced out.2) = true.
Proof.
  intros Hp Hreq. destruct e as [now | now | now]; [| | done];
    cbn -[SqliteCache.checkForExpiredItems];
    unfold SqliteCache.bind, SqliteCache.gets, SqliteCache.modify, SqliteCache.ret;
    cbn -[SqliteCache.checkForExpiredItems].
  - destruct (SqliteCache.checkInterval s); [| done].
    by rewrite checkForExpiredItems_pending.
  - destruct (SqliteCache.immediates s) as [| n]; [done |].
    by rewrite checkForExpiredItems_pending.
Qed.

(** X16. Sweep requests are coalesced on the leading edge.  Once the
    debounced function has been called (which arms the wrapper's timer),
    every further request, from the interval timer or from a callback
    queued by [set], runs no statement until the wrapper's timer has fired:
    the connection and the console stay as the first call left them,
    whatever the storage would do. *)
Theorem requests_in_the_quiet_period_run_no_sweep s now (es : list SqliteCache.Event) :
  let first := (SqliteCache.checkForExpiredItems stmts now s).2 in
  timeoutId (SqliteCache.debounced first) = true
  ∧ (Forall (λ e, is_request e = true) es →
     SqliteCache.db (SqliteCache.fires stmts es first).2 = SqliteCache.db first
     ∧ SqliteCache.console (SqliteCache.fires stmts es first).2 = SqliteCache.console first).
Proof.
  intros first. pose proof (checkForExpiredItems_armed s now) as Harmed.
  fold first in Harmed. split; [done |]. clearbody first. clear s.
  revert first Harmed. induction es as [| e es IH]; intros s Hp Hes; [done |].
  apply Forall_cons in Hes as [He Hes].
  cbn -[SqliteCache.fire].
  destruct (request_while_pending s e Hp He) as (Hd & Hl & Hp1).
  destruct (SqliteCache.fire stmts e s) as [r s1]. cbn in Hd, Hl, Hp1.
  destruct (IH s1 Hp1 Hes) as (Hd' & Hl').
  destruct (SqliteCache.fires stmts es s1) as [rs s2]. cbn in *.
  split; congruence.
Qed.

End Debounce.

(** ** Construction, histories, reopening *)

Section Histories.
Context {Value : Type} {codec : Codec Value}.
Implicit Types (s : SqliteCache.t) (key k : string) (now : Z).









(** X19. Closing is final.  Once the closed flag is set, no history of
    public calls, further [close] calls and background events unsets it or
    changes a row of the table. *)
Theorem closed_cache_stays_closed_and_untouched s (sts : list (Step Value)) :
  SqliteCache.isClosed s = true →
  let s' := (steps initSqliteCache sts s).2 in
  SqliteCache.isClosed s' = true
  ∧ table (SqliteCache.db s') = table (SqliteCache.db s).
Proof.
  revert s. induction sts as [| st sts IH]; intros s Hc; [done |].
  cbn -[step].
  assert (SqliteCache.isClosed (step initSqliteCache st s).2 = true
          ∧ table (SqliteCache.db (step initSqliteCache st s).2)
            = table (SqliteCache.db s)) as (Hc1 & Ht1).
  { destruct st as [c | | e]; cbn -[SqliteCache.call SqliteCache.fire].
    - by rewrite call_closed.
    - unfold SqliteCache.bind, SqliteCache.ret, SqliteCache.close, SqliteCache.modify,
        SqliteCache.run_statement. cbn. done.
    - unfold SqliteCache.bind, SqliteCache.ret.
      destruct (fire_closed initSqliteCache s e Hc) as (Hd & _ & Hc').
      destruct (SqliteCache.fire initSqliteCache e s) as [[ex | []] s1]; cbn in *;
        by rewrite Hd. }
  destruct (step initSqliteCache st s) as [r s1]. cbn in Hc1, Ht1.
  destruct (IH s1 Hc1) as (Hc2 & Ht2).
  destruct (steps initSqliteCache sts s1) as [rs s2]. cbn in *.
  split; congruence.
Qed.


End Histories.

(** ** A TTL that is not positive *)

(** X21. A [set] with a per-call [ttlMs] that is zero or negative (and an
    expiry within the range of [Date]) writes a row that no [get] at or
    after the time of the write returns: the row is in the table, but
    [get] answers [undefined] and leaves it untouched. *)
Theorem nonpositive_ttl_is_never_readable {Value : Type} {codec : Codec Value}
  (s : SqliteCache.t) key (v : Value) opts date_now now ttl now' :
  SqliteCache.isClosed s = false →
  isOpen (SqliteCache.db s) = true →
  Opts.ttlMs opts = Some ttl →
  (ttl ≤ 0)%Z →
  (Z.abs (date_now + ttl) ≤ 8640000000000000)%Z →
  (date_now ≤ now')%Z →
  let written := (SqliteCache.set initSqliteCache key v opts date_now now s).2 in
  is_Some (table (SqliteCache.db written) !! key)
  ∧ SqliteCache.get initSqliteCache key now' written = (inr undefined, written).
Proof.
  intros Hc Ho Httl Hneg Hrange Hlater written. subst written.
  rewrite (set_open s key v opts date_now now Hc Ho). cbn -[SqliteCache.get].
  rewrite lookup_insert_eq. split; [eauto |].
  rewrite get_open by done. cbn. rewrite lookup_insert_eq.
  unfold live, stored_expires. cbn. rewrite Httl.
  rewrite new_Date_getTime_in_range by done.
  assert ((now' <? date_now + ttl)%Z = false) as -> by (apply Z.ltb_ge; lia).
  done.
Qed.

(** ** The further properties at concrete inputs *)

(** X3 on the cache holding ["foo"]. *)
Lemma delete_removes_only_the_key_witness :
  SqliteCache.isClosed demo_cache_foo = false
  ∧ isOpen (SqliteCache.db demo_cache_foo) = true
  ∧ table (SqliteCache.db demo_cache_foo) !! "foo" = Some demo_row_foo
  ∧ table (SqliteCache.db (SqliteCache.delete initSqliteCache "foo" demo_cache_foo).2)
    !! "foo" = None.
Proof.
  split; [reflexivity |]. split; [reflexivity |]. split; [reflexivity |].
  exact (proj1 (proj2 (delete_removes_only_the_key (Value := JsValue)
                         demo_cache_foo "foo" eq_refl eq_refl))).
Defined.

(** X4 on the cache with three keys. *)
Lemma clear_empties_the_table_witness :
  SqliteCache.isClosed demo_cache_three = false
  ∧ isOpen (SqliteCache.db demo_cache_three) = true
  ∧ size (table (SqliteCache.db demo_cache_three)) = 3
  ∧ table (SqliteCache.db (SqliteCache.clear initSqliteCache demo_cache_three).2) = ∅.
Proof.
  split; [reflexivity |]. split; [reflexivity |]. split; [reflexivity |].
  exact (proj1 (proj2 (clear_empties_the_table (Value := JsValue)
                         demo_cache_three eq_refl eq_refl))).
Defined.

(** X5: overwriting ["foo"] keeps the table at one row. *)
Lemma set_replaces_the_whole_row_witness :
  SqliteCache.isClosed demo_cache_foo = false
  ∧ isOpen (SqliteCache.db demo_cache_foo) = true
  ∧ size (table (SqliteCache.db
        (SqliteCache.set initSqliteCache "foo" JsNull no_opts 1005 1005 demo_cache_foo).2))
    = 1.
Proof.
  split; [reflexivity |]. split; [reflexivity |].
  destruct (set_replaces_the_whole_row demo_cache_foo "foo" JsNull no_opts 1005 1005
              eq_refl eq_refl) as (_ & _ & _ & _ & _ & Hsize).
  rewrite Hsize. reflexivity.
Defined.

(** X6: two reads of ["foo"], at times 1001 and 1002. *)
Lemma get_twice_returns_the_same_witness :
  SqliteCache.isClosed demo_cache_foo = false
  ∧ isOpen (SqliteCache.db demo_cache_foo) = true
  ∧ (SqliteCache.get initSqliteCache "foo" 1002
       (SqliteCache.get initSqliteCache "foo" 1001 demo_cache_foo).2).1
    = (SqliteCache.get initSqliteCache "foo" 1001 demo_cache_foo).1.
Proof.
  split; [reflexivity |]. split; [reflexivity |].
  exact (proj1 (get_twice_returns_the_same (Value := JsValue) demo_cache_foo "foo"
                  demo_row_foo 1001 1002 eq_refl eq_refl eq_refl eq_refl eq_refl)).
Defined.

(** X7 on a storage that always fails. *)
Lemma storage_error_reaches_the_caller_witness :
  SqliteCache.isClosed demo_cache = false
  ∧ SqliteCache.set broken_storage "foo" JsNull no_opts 1000 1000 demo_cache
    = (inl io_error, demo_cache).
Proof.
  split; [reflexivity |].
  destruct (storage_error_reaches_the_caller (Value := JsValue) broken_storage
              demo_cache io_error eq_refl) as (_ & Hset & _).
  apply Hset. intros bytes e c. reflexivity.
Defined.

(** X8 on a storage that always fails. *)
Lemma failed_close_stops_the_timer_only_witness :
  db_close broken_storage (SqliteCache.db demo_cache) = inl io_error
  ∧ SqliteCache.close broken_storage demo_cache
    = (inl io_error, SqliteCache.set_checkInterval false demo_cache).
Proof.
  split; [reflexivity |].
  exact (failed_close_stops_the_timer_only broken_storage demo_cache io_error eq_refl).
Defined.



(** X13: the oldest of three rows is read at time 1005 and survives the
    sweep that evicts down to two rows. *)
Lemma a_row_just_read_survives_the_sweep_witness :
  SqliteCache.isClosed demo_cache_three = false
  ∧ isOpen (SqliteCache.db demo_cache_three) = true
  ∧ table (SqliteCache.db demo_cache_three) !! "a" = Some demo_row_a
  ∧ table (SqliteCache.db
       (SqliteCache.sweep initSqliteCache 1006
          (SqliteCache.get initSqliteCache "a" 1005 demo_cache_three).2).2) !! "a"
    = Some (touch 1005 demo_row_a).
Proof.
  split; [reflexivity |]. split; [reflexivity |]. split; [reflexivity |].
  apply (a_row_just_read_survives_the_sweep (Value := JsValue) demo_cache_three "a"
           demo_row_a 1005 1006 _ eq_refl eq_refl eq_refl eq_refl eq_refl).
  - refine (bool_decide_unpack
              (map_Forall (λ (k' : string) r', k' ≠ "a" → (lastAccess r' < 1005)%Z)
                 (table (SqliteCache.db demo_cache_three))) _).
    vm_compute. exact I.
  - reflexivity.
Defined.

(** X14: a fourth key written at time 1005 survives the sweep. *)
Lemma a_row_just_written_survives_the_sweep_witness :
  SqliteCache.isClosed demo_cache_three = false
  ∧ isOpen (SqliteCache.db demo_cache_three) = true
  ∧ is_Some (table (SqliteCache.db
       (SqliteCache.sweep initSqliteCache 1006
          (SqliteCache.set initSqliteCache "d" JsNull (ttl_opts 50) 1005 1005
             demo_cache_three).2).2) !! "d").
Proof.
  split; [reflexivity |]. split; [reflexivity |].
  destruct (a_row_just_written_survives_the_sweep demo_cache_three "d" JsNull (ttl_opts 50)
              1005 1005 1006 _ eq_refl eq_refl eq_refl) as [Hkept Hwritten].
  - refine (bool_decide_unpack
              (map_Forall (λ (k' : string) r', k' ≠ "d" → (lastAccess r' < 1005)%Z)
                 (table (SqliteCache.db demo_cache_three))) _).
    vm_compute. exact I.
  - intros ttl [= <-]. lia.
  - rewrite Hkept. exact Hwritten.
Defined.

(** X15: the sweep at 1021 deletes the expired ["foo"]; a [get] at 1025
    returns [undefined] with and without it. *)
Lemma ttl_sweep_is_invisible_to_get_witness :
  SqliteCache.isClosed demo_unbounded_foo = false
  ∧ isOpen (SqliteCache.db demo_unbounded_foo) = true
  ∧ table (SqliteCache.db (SqliteCache.sweep initSqliteCache 1021 demo_unbounded_foo).2)
    = ∅
  ∧ (SqliteCache.get initSqliteCache "foo" 1025
       (SqliteCache.sweep initSqliteCache 1021 demo_unbounded_foo).2).1
    = (SqliteCache.get initSqliteCache "foo" 1025 demo_unbounded_foo).1.
Proof.
  split; [reflexivity |]. split; [reflexivity |]. split; [reflexivity |].
  apply (ttl_sweep_is_invisible_to_get (Value := JsValue) demo_unbounded_foo "foo"
           1021 1025 eq_refl eq_refl eq_refl).
  lia.
Defined.


(** X19 on the closed cache. *)
Lemma closed_cache_stays_closed_and_untouched_witness :
  SqliteCache.isClosed demo_cache_closed = true
  ∧ table (SqliteCache.db (steps initSqliteCache demo_history demo_cache_closed).2)
    = table (SqliteCache.db demo_cache_closed).
Proof.
  split; [reflexivity |].
  exact (proj2 (closed_cache_stays_closed_and_untouched demo_cache_closed demo_history
                  eq_refl)).
Defined.


(** X21: a TTL of zero. *)
Lemma nonpositive_ttl_is_never_readable_witness :
  SqliteCache.isClosed demo_cache = false
  ∧ isOpen (SqliteCache.db demo_cache) = true
  ∧ (SqliteCache.get initSqliteCache "foo" 1000
       (SqliteCache.set initSqliteCache "foo" JsNull (ttl_opts 0) 1000 1000 demo_cache).2).1
    = inr JsUndefined.
Proof.
  split; [reflexivity |]. split; [reflexivity |].
  destruct (nonpositive_ttl_is_never_readable demo_cache "foo" JsNull (ttl_opts 0)
              1000 1000 0 1000 eq_refl eq_refl eq_refl) as [_ Hget]; [lia | lia | lia |].
  rewrite Hget. reflexivity.
Defined.
